(** * Budget PC parts catalogue: services over the relational store

    A shallow embedding of [app/models.py] and [app/services.py].

    Conventions of the embedding:
    - [Decimal] values with two decimal places (prices) are integers counting
      hundredths: [Decimal("199.99")] is [19999].
    - [datetime] values are integers (microseconds on the UTC time line).
    - A table is the list of its rows in storage order; a row that has been
      committed always carries its primary key.
    - [str] is [string], the UTF-8 bytes of the text.  [ILIKE] is modelled as
      the store applies it to ASCII text (see [is_ascii]): the statements
      about the text search are made for ASCII text. *)

From Stdlib Require Import ZArith List String Ascii Bool Permutation Sorted Lia.
Import ListNotations.

Local Open Scope Z_scope.
Local Open Scope list_scope.

(* ================================================================== *)
(** ** [app/models.py] *)

Definition Decimal := Z.
Definition datetime := Z.

Inductive ProductStatus := ACTIVE | OUT_OF_STOCK | DISCONTINUED.

Definition ProductStatus_eqb (a b : ProductStatus) : bool :=
  match a, b with
  | ACTIVE, ACTIVE | OUT_OF_STOCK, OUT_OF_STOCK | DISCONTINUED, DISCONTINUED => true
  | _, _ => false
  end.

Module Category.
Record t := mk
  { id : Z;
    name : string;            (* unique *)
    description : string;
    slug : string;            (* unique *)
    parent_id : option Z;
    is_active : bool;
    created_at : datetime }.
End Category.

Module Brand.
Record t := mk
  { id : Z;
    name : string;            (* unique *)
    description : string;
    logo_url : option string;
    website_url : option string;
    is_active : bool;
    created_at : datetime }.
End Brand.

Module Product.
Record t := mk
  { id : Z;
    name : string;
    description : string;
    sku : string;             (* unique *)
    price : Decimal;
    original_price : option Decimal;
    status : ProductStatus;
    category_id : option Z;
    brand_id : option Z;
    specifications : list (string * string);
    features : list string;
    stock_quantity : Z;
    min_stock_level : Z;
    slug : string;            (* unique *)
    meta_title : option string;
    meta_description : option string;
    created_at : datetime;
    updated_at : datetime }.
End Product.

Module ProductImage.
Record t := mk
  { id : Z;
    product_id : Z;
    image_url : string;
    alt_text : string;
    is_primary : bool;
    display_order : Z;
    created_at : datetime }.
End ProductImage.

Module ProductFilter.
Record t := mk
  { category_id : option Z;
    brand_id : option Z;
    min_price : option Decimal;
    max_price : option Decimal;
    status : option ProductStatus;
    in_stock_only : bool;
    search_query : option string }.

(** [ProductFilter()] with every field at its default. *)
Definition default : t := mk None None None None None false None.
End ProductFilter.

Module ProductSummary.
Record t := mk
  { id : Z;
    name : string;
    price : Decimal;
    original_price : option Decimal;
    status : ProductStatus;
    primary_image_url : option string;
    category_name : option string;
    brand_name : option string;
    stock_quantity : Z;
    created_at : datetime   (* rendered with [isoformat()] in the source *) }.
End ProductSummary.

(* ================================================================== *)
(** ** The store *)

Record Database := mkDatabase
  { categories : list Category.t;
    brands : list Brand.t;
    products : list Product.t;
    product_images : list ProductImage.t }.

Definition empty_db : Database := mkDatabase [] [] [] [].

(** What a call can raise. *)
Inductive Error :=
| IntegrityError (table column : string)   (* a unique constraint refused a commit *)
| DataError          (* the store refused a LIMIT or OFFSET: negative, or past its 64-bit integers *)
| ValidationError.                          (* a schema refused a field value *)

Inductive Result (A : Type) :=
| Ok (a : A)
| Raise (e : Error).
Arguments Ok {A} a.
Arguments Raise {A} e.

(** A session threads the store through the statements of one call.  What
    was committed before an exception stays committed. *)
Definition Session (A : Type) := Database -> Result A * Database.

Definition ret {A} (a : A) : Session A := fun db => (Ok a, db).

Definition bind {A B} (m : Session A) (k : A -> Session B) : Session B :=
  fun db =>
    match m db with
    | (Ok a, db') => k a db'
    | (Raise e, db') => (Raise e, db')
    end.

Declare Scope session_scope.
Delimit Scope session_scope with session.
Notation "x <- m ;; k" := (bind m (fun x => k))
  (at level 61, m at next level, right associativity) : session_scope.

(** Primary keys are generated by the store: one more than the largest key of
    the table, 1 on an empty table.  (The store draws them from a sequence,
    which can run ahead of the table after deletions; the statements below
    rely on the keys being new, not on their values.) *)
Definition next_id (ids : list Z) : Z := 1 + fold_right Z.max 0 ids.

(** Objects added to the session wait for their key until the flush. *)
Fixpoint assign_ids {A} (first : Z) (pending : list (Z -> A)) : list A :=
  match pending with
  | [] => []
  | obj :: rest => obj first :: assign_ids (first + 1) rest
  end.

Definition mem_string (s : string) (l : list string) : bool :=
  existsb (String.eqb s) l.

(** A unique column refuses new values that are already stored or that
    repeat among the rows of one flush. *)
Fixpoint violates_unique (stored new : list string) : bool :=
  match new with
  | [] => false
  | v :: rest => mem_string v stored || mem_string v rest || violates_unique stored rest
  end.

(** [session.get(Model, pk)] *)
Definition session_get {A} (pk_of : A -> Z) (table : list A) (pk : Z) : option A :=
  find (fun row => pk_of row =? pk) table.

(** The store reads LIMIT and OFFSET as 64-bit integers: 2^63 and more is out
    of range. *)
Definition bigint_bound : Z := 9223372036854775808.

(* ================================================================== *)
(** ** Text *)

(** A byte below 128 is one ASCII character. *)
Definition is_ascii_char (c : ascii) : bool := (nat_of_ascii c <? 128)%nat.

Fixpoint is_ascii (s : string) : bool :=
  match s with
  | EmptyString => true
  | String c s' => is_ascii_char c && is_ascii s'
  end.

(** Python's [len(s)]: the characters of [s].  In UTF-8 every character
    starts with one byte outside 128..191 (the continuation bytes). *)
Definition starts_character (c : ascii) : bool :=
  let n := nat_of_ascii c in
  ((n <? 128) || (192 <=? n))%nat.

Fixpoint utf8_length (s : string) : nat :=
  match s with
  | EmptyString => 0%nat
  | String c s' => ((if starts_character c then 1 else 0) + utf8_length s')%nat
  end.

(* ================================================================== *)
(** ** [ILIKE]

    The matcher below works on bytes and folds the case of the ASCII
    letters.  On ASCII text this is what the store does; on other text the
    store folds more letters and lets [_] stand for a whole character. *)

Definition lower_ascii (c : ascii) : ascii :=
  let n := nat_of_ascii c in
  if ((65 <=? n) && (n <=? 90))%nat then ascii_of_nat (n + 32) else c.

Fixpoint lower (s : string) : string :=
  match s with
  | EmptyString => EmptyString
  | String c s' => String (lower_ascii c) (lower s')
  end.

(** [s LIKE p]: [%] stands for any run of characters, [_] for any one
    character, a backslash makes the next pattern character literal.  A
    pattern that ends in a lone backslash is refused by the store; the
    patterns built by [get_products] end in [%] (see
    [search_pattern_no_dangling_escape]). *)
Fixpoint like_match (p s : string) {struct p} : bool :=
  match p with
  | EmptyString => match s with EmptyString => true | String _ _ => false end
  | String c p' =>
      if Ascii.eqb c "%" then
        (fix star (s : string) : bool :=
           like_match p' s
           || match s with
              | EmptyString => false
              | String _ s' => star s'
              end) s
      else if Ascii.eqb c "_" then
        match s with
        | EmptyString => false
        | String _ s' => like_match p' s'
        end
      else if Ascii.eqb c "\" then
        match p' with
        | EmptyString => false
        | String e p'' =>
            match s with
            | EmptyString => false
            | String d s' => Ascii.eqb e d && like_match p'' s'
            end
        end
      else
        match s with
        | EmptyString => false
        | String d s' => Ascii.eqb c d && like_match p' s'
        end
  end.

Fixpoint dangling_escape (p : string) : bool :=
  match p with
  | EmptyString => false
  | String c p' =>
      if Ascii.eqb c "\" then
        match p' with
        | EmptyString => true
        | String _ p'' => dangling_escape p''
        end
      else dangling_escape p'
  end.

Definition ilike (s p : string) : bool := like_match (lower p) (lower s).

(** [q in s] *)
Fixpoint prefix_of (q s : string) : bool :=
  match q, s with
  | EmptyString, _ => true
  | String _ _, EmptyString => false
  | String a q', String b s' => Ascii.eqb a b && prefix_of q' s'
  end.

Fixpoint substring_of (q s : string) : bool :=
  prefix_of q s
  || match s with
     | EmptyString => false
     | String _ s' => substring_of q s'
     end.

(** [q.lower() in s.lower()], with the ASCII letters folded: the containment
    of the claims on ASCII text. *)
Definition contains_ci (q s : string) : bool := substring_of (lower q) (lower s).

(** The characters [LIKE] gives a meaning of their own, and the strings
    without any of them. *)
Definition special (c : ascii) : bool :=
  Ascii.eqb c "%" || Ascii.eqb c "_" || Ascii.eqb c "\".

Fixpoint literal (q : string) : bool :=
  match q with
  | EmptyString => true
  | String c q' => negb (special c) && literal q'
  end.

(** [Product.status == ProductStatus.ACTIVE] *)
Definition is_active_product (p : Product.t) : bool :=
  ProductStatus_eqb (Product.status p) ACTIVE.

(* ================================================================== *)
(** ** [ORDER BY]

    [ORDER BY products.created_at DESC] names one key.  SQL leaves the order
    of rows with equal keys to the store, and the store may settle it
    differently for each statement, so the services take the ordering the
    store applied as an argument.  [order_by_contract] is what every such
    ordering satisfies. *)

Definition created_at_desc (p q : Product.t) : Prop :=
  Product.created_at q <= Product.created_at p.

Definition order_by_contract (order_by : list Product.t -> list Product.t) : Prop :=
  forall rows,
    Permutation rows (order_by rows) /\ StronglySorted created_at_desc (order_by rows).

(** Two orderings a store may apply: rows with equal keys in storage order,
    or in reverse storage order. *)
Fixpoint insert_before_ties (p : Product.t) (l : list Product.t) : list Product.t :=
  match l with
  | [] => [p]
  | q :: r =>
      if Product.created_at q <=? Product.created_at p then p :: l
      else q :: insert_before_ties p r
  end.

Fixpoint insert_after_ties (p : Product.t) (l : list Product.t) : list Product.t :=
  match l with
  | [] => [p]
  | q :: r =>
      if Product.created_at q <? Product.created_at p then p :: l
      else q :: insert_after_ties p r
  end.

Definition order_ties_in_storage_order (rows : list Product.t) : list Product.t :=
  fold_right insert_before_ties [] rows.

Definition order_ties_in_reverse_order (rows : list Product.t) : list Product.t :=
  fold_right insert_after_ties [] rows.

(** A third one, the tie order of a sort that keeps only the best two rows
    (LIMIT 1 OFFSET 1): such a sort takes over once the rows outnumber twice
    the two it keeps, and hands the two back last kept first, so two leading
    rows that tie change places. *)
Definition swap_leading_tie (rows : list Product.t) : list Product.t :=
  match rows with
  | p :: q :: rest =>
      if Product.created_at p =? Product.created_at q then q :: p :: rest else rows
  | _ => rows
  end.

Definition order_keeping_best_two (rows : list Product.t) : list Product.t :=
  if (4 <? List.length rows)%nat
  then swap_leading_tie (order_ties_in_storage_order rows)
  else order_ties_in_storage_order rows.

(** [ORDER BY name] on categories and brands: the collation belongs to the
    store, only the rows are fixed. *)
Definition reorders {A} (order_by : list A -> list A) : Prop :=
  forall rows, Permutation rows (order_by rows).

(* ================================================================== *)
(** ** [app/services.py]: [ProductService] *)

Module ProductService.

(** [Product.category_id == c] and [Product.brand_id == b]: a NULL column
    matches nothing. *)
Definition column_eq (col : option Z) (v : Z) : bool :=
  match col with
  | Some x => x =? v
  | None => false
  end.

(** The [query.where(...)] calls of [get_products], in source order. *)
Definition where_clauses (filters : ProductFilter.t) : list (Product.t -> bool) :=
  (match ProductFilter.category_id filters with
   | Some c => [fun p => column_eq (Product.category_id p) c]
   | None => []
   end)
  ++ (match ProductFilter.brand_id filters with
      | Some b => [fun p => column_eq (Product.brand_id p) b]
      | None => []
      end)
  ++ (match ProductFilter.min_price filters with
      | Some m => [fun p => Product.price p >=? m]
      | None => []
      end)
  ++ (match ProductFilter.max_price filters with
      | Some m => [fun p => Product.price p <=? m]
      | None => []
      end)
  ++ (match ProductFilter.status filters with
      | Some s => [fun p => ProductStatus_eqb (Product.status p) s]
      | None => []
      end)
  ++ (if ProductFilter.in_stock_only filters
      then [fun p => Product.stock_quantity p >? 0]
      else [])
  ++ (match ProductFilter.search_query filters with
      | None | Some EmptyString => []
      | Some q =>
          let search_pattern := ("%" ++ q ++ "%")%string in
          [fun p => ilike (Product.name p) search_pattern
                    || ilike (Product.description p) search_pattern]
      end).

Definition satisfies (clauses : list (Product.t -> bool)) (p : Product.t) : bool :=
  forallb (fun clause => clause p) clauses.

(** The rows the [WHERE] part of the query keeps.  The two outer joins are
    on primary keys of the joined tables: they add and drop no product
    row. *)
Definition matching (db : Database) (filters : option ProductFilter.t) : list Product.t :=
  let clauses :=
    match filters with
    | Some f => where_clauses f
    | None => []
    end in
  filter (satisfies clauses) (products db).

(** [select(ProductImage).where(product_id == id).where(is_primary).limit(1)],
    then [.first()]. *)
Definition primary_image (db : Database) (product_id : Z) : option ProductImage.t :=
  find (fun im => (ProductImage.product_id im =? product_id) && ProductImage.is_primary im)
       (product_images db).

(** [product.id or 0] *)
Definition or_0 (id : Z) : Z := if id =? 0 then 0 else id.

Definition summary (db : Database) (product : Product.t) : ProductSummary.t :=
  ProductSummary.mk
    (or_0 (Product.id product))
    (Product.name product)
    (Product.price product)
    (Product.original_price product)
    (Product.status product)
    (option_map ProductImage.image_url (primary_image db (Product.id product)))
    (match Product.category_id product with
     | Some c => option_map Category.name (session_get Category.id (categories db) c)
     | None => None
     end)
    (match Product.brand_id product with
     | Some b => option_map Brand.name (session_get Brand.id (brands db) b)
     | None => None
     end)
    (Product.stock_quantity product)
    (Product.created_at product).

Section WithStore.
Variable order_by_created_at_desc : list Product.t -> list Product.t.

Definition get_products (db : Database) (filters : option ProductFilter.t)
    (limit offset : Z) : Result (list ProductSummary.t) :=
  if (limit <? 0) || (offset <? 0)
     || (bigint_bound <=? limit) || (bigint_bound <=? offset)
  then Raise DataError
  else
    let rows := order_by_created_at_desc (matching db filters) in
    let page := firstn (Z.to_nat limit) (skipn (Z.to_nat offset) rows) in
    Ok (map (summary db) page).

Definition get_featured_products (db : Database) (limit : Z)
    : Result (list ProductSummary.t) :=
  let filters :=
    ProductFilter.mk None None None (Some 20000) (Some ACTIVE) true None in
  get_products db (Some filters) limit 0.

(** [ProductFilter(search_query=query, ...)] refuses more than 200
    characters. *)
Definition search_products (db : Database) (query : string) (limit : Z)
    : Result (list ProductSummary.t) :=
  if (200 <? utf8_length query)%nat then Raise ValidationError
  else
    let filters :=
      ProductFilter.mk None None None None (Some ACTIVE) false (Some query) in
    get_products db (Some filters) limit 0.
End WithStore.

Definition get_product_by_id (db : Database) (product_id : Z) : option Product.t :=
  session_get Product.id (products db) product_id.


Section WithImageOrder.
Variable order_by_display_order : list ProductImage.t -> list ProductImage.t.

Definition get_product_images (db : Database) (product_id : Z)
    : list ProductImage.t :=
  order_by_display_order
    (filter (fun im => ProductImage.product_id im =? product_id) (product_images db)).
End WithImageOrder.

Module PriceRange.
Record t := mk { min : Decimal; max : Decimal }.
End PriceRange.

(** Python's [min(prices)] and [max(prices)] on a non-empty list. *)
Definition list_min (first : Decimal) (rest : list Decimal) : Decimal :=
  fold_left Z.min rest first.
Definition list_max (first : Decimal) (rest : list Decimal) : Decimal :=
  fold_left Z.max rest first.

Definition get_price_range (db : Database) : PriceRange.t :=
  let active :=
    filter (fun p => ProductStatus_eqb (Product.status p) ACTIVE) (products db) in
  match active with
  | [] => PriceRange.mk 0 100000
  | _ :: _ =>
      (* the column is NOT NULL: no price is dropped by the comprehension *)
      let prices := map Product.price active in
      PriceRange.mk
        (match prices with x :: r => list_min x r | [] => 0 end)
        (match prices with x :: r => list_max x r | [] => 100000 end)
  end.

End ProductService.

(* ================================================================== *)
(** ** [CategoryService] and [BrandService] *)

Module CategoryService.

Definition get_category_by_id (db : Database) (category_id : Z) : option Category.t :=
  session_get Category.id (categories db) category_id.

Section WithStore.
Variable order_by_name : list Category.t -> list Category.t.

Definition get_all_categories (db : Database) : list Category.t :=
  order_by_name (filter Category.is_active (categories db)).

Definition get_categories_with_product_counts (db : Database)
    : list (Category.t * nat) :=
  let categories := order_by_name (filter Category.is_active (categories db)) in
  map (fun category =>
         let product_count :=
           filter (fun p => ProductStatus_eqb (Product.status p) ACTIVE)
             (filter (fun p => ProductService.column_eq (Product.category_id p)
                                 (Category.id category))
                (products db)) in
         (category, List.length product_count))
      categories.
End WithStore.


(** [parent_id IS NULL] *)
Definition is_root (c : Category.t) : bool :=
  match Category.parent_id c with
  | None => true
  | Some _ => false
  end.

Section Roots.
Variable order_by_name : list Category.t -> list Category.t.

Definition get_root_categories (db : Database) : list Category.t :=
  order_by_name (filter Category.is_active (filter is_root (categories db))).
End Roots.

End CategoryService.

Module BrandService.

Definition get_brand_by_id (db : Database) (brand_id : Z) : option Brand.t :=
  session_get Brand.id (brands db) brand_id.

Section WithStore.
Variable order_by_name : list Brand.t -> list Brand.t.

Definition get_all_brands (db : Database) : list Brand.t :=
  order_by_name (filter Brand.is_active (brands db)).

Definition get_brands_with_product_counts (db : Database)
    : list (Brand.t * nat) :=
  let brands := order_by_name (filter Brand.is_active (brands db)) in
  map (fun brand =>
         let product_count :=
           filter (fun p => ProductStatus_eqb (Product.status p) ACTIVE)
             (filter (fun p => ProductService.column_eq (Product.brand_id p)
                                 (Brand.id brand))
                (products db)) in
         (brand, List.length product_count))
      brands.
End WithStore.

End BrandService.

(** [ORDER BY display_order] on images: ascending, ties left to the store. *)
Definition display_order_asc (a b : ProductImage.t) : Prop :=
  ProductImage.display_order a <= ProductImage.display_order b.

Definition display_order_contract
    (order_by : list ProductImage.t -> list ProductImage.t) : Prop :=
  forall rows,
    Permutation rows (order_by rows) /\ StronglySorted display_order_asc (order_by rows).

Fixpoint insert_by_display_order (im : ProductImage.t) (l : list ProductImage.t)
    : list ProductImage.t :=
  match l with
  | [] => [im]
  | x :: r =>
      if ProductImage.display_order im <=? ProductImage.display_order x then im :: l
      else x :: insert_by_display_order im r
  end.

Definition order_images_in_storage_order (rows : list ProductImage.t)
    : list ProductImage.t :=
  fold_right insert_by_display_order [] rows.

(* ================================================================== *)
(** ** [app/components.py] and [app/pages.py]: what the views read

    Only the data a view decides on is modelled, not the widgets. *)

Module Components.

(** [ProductCard.render]: the image of the card, or the placeholder ([None])
    when the summary has no URL or an empty one. *)
Definition card_image (product : ProductSummary.t) : option string :=
  match ProductSummary.primary_image_url product with
  | None | Some EmptyString => None
  | Some url => Some url
  end.

(** [ProductDetail._render_image_gallery]: the placeholder ([None]) without
    images, else the first image flagged primary, else the first image. *)
Definition gallery_image (images : list ProductImage.t) : option ProductImage.t :=
  match images with
  | [] => None
  | first :: _ =>
      Some (match find ProductImage.is_primary images with
            | Some img => img
            | None => first
            end)
  end.

Section WithImageOrder.
Variable order_by_display_order : list ProductImage.t -> list ProductImage.t.

(** [ProductDetail(product)]: the images are loaded in [__init__]. *)
Definition detail_image (db : Database) (product : Product.t) : option ProductImage.t :=
  gallery_image
    (ProductService.get_product_images order_by_display_order db
       (ProductService.or_0 (Product.id product))).
End WithImageOrder.

End Components.

Module Pages.


Section WithStore.
Variable order_by_created_at_desc : list Product.t -> list Product.t.
Variable order_by_name : list Category.t -> list Category.t.

(** [home_page]: the quick links are the first six root categories. *)
Definition home_categories (db : Database) : list Category.t :=
  firstn 6 (CategoryService.get_root_categories order_by_name db).

End WithStore.

End Pages.

(** A search string without a backslash: no character of it is escaped. *)
Fixpoint no_escape (q : string) : bool :=
  match q with
  | EmptyString => true
  | String c q' => negb (Ascii.eqb c "\") && no_escape q'
  end.

(** Foreign keys: every reference of a product or an image points to a
    stored row. *)
Definition foreign_keys_valid (db : Database) : Prop :=
  (forall p c, In p (products db) -> Product.category_id p = Some c ->
               In c (map Category.id (categories db))) /\
  (forall p b, In p (products db) -> Product.brand_id p = Some b ->
               In b (map Brand.id (brands db))) /\
  (forall im, In im (product_images db) ->
              In (ProductImage.product_id im) (map Product.id (products db))).

(** Primary keys and unique columns hold no value twice. *)
Definition keys_distinct (db : Database) : Prop :=
  NoDup (map Category.id (categories db)) /\
  NoDup (map Brand.id (brands db)) /\
  NoDup (map Product.id (products db)) /\
  NoDup (map ProductImage.id (product_images db)).

Definition unique_columns_hold (db : Database) : Prop :=
  NoDup (map Category.name (categories db)) /\
  NoDup (map Category.slug (categories db)) /\
  NoDup (map Brand.name (brands db)) /\
  NoDup (map Product.sku (products db)) /\
  NoDup (map Product.slug (products db)).

(** Vocabulary for the statements about counts: the products of a category,
    of a brand, and with a given status. *)
Definition in_category (c : Category.t) (p : Product.t) : bool :=
  ProductService.column_eq (Product.category_id p) (Category.id c).

Definition of_brand (b : Brand.t) (p : Product.t) : bool :=
  ProductService.column_eq (Product.brand_id p) (Brand.id b).

Definition has_status (s : ProductStatus) (p : Product.t) : bool :=
  ProductStatus_eqb (Product.status p) s.

(* ================================================================== *)
(** ** Commits

    One [session.commit()] flushes the pending objects of one table in one
    statement: either every row is stored or the unique constraint raises
    and none is.  The column named in the error is the first one found
    violated here; the store checks row by row and may name another column
    of the same table. *)

Definition first_product : Session (option Product.t) :=
  fun db => (Ok (hd_error (products db)), db).

Definition commit_categories (pending : list (Z -> Category.t))
    : Session (list Category.t) :=
  fun db =>
    let rows := assign_ids (next_id (map Category.id (categories db))) pending in
    if violates_unique (map Category.name (categories db)) (map Category.name rows)
    then (Raise (IntegrityError "categories" "name"), db)
    else if violates_unique (map Category.slug (categories db)) (map Category.slug rows)
    then (Raise (IntegrityError "categories" "slug"), db)
    else (Ok rows,
          mkDatabase (categories db ++ rows) (brands db) (products db)
            (product_images db)).

Definition commit_brands (pending : list (Z -> Brand.t)) : Session (list Brand.t) :=
  fun db =>
    let rows := assign_ids (next_id (map Brand.id (brands db))) pending in
    if violates_unique (map Brand.name (brands db)) (map Brand.name rows)
    then (Raise (IntegrityError "brands" "name"), db)
    else (Ok rows,
          mkDatabase (categories db) (brands db ++ rows) (products db)
            (product_images db)).

Definition commit_products (pending : list (Z -> Product.t))
    : Session (list Product.t) :=
  fun db =>
    let rows := assign_ids (next_id (map Product.id (products db))) pending in
    if violates_unique (map Product.sku (products db)) (map Product.sku rows)
    then (Raise (IntegrityError "products" "sku"), db)
    else if violates_unique (map Product.slug (products db)) (map Product.slug rows)
    then (Raise (IntegrityError "products" "slug"), db)
    else (Ok rows,
          mkDatabase (categories db) (brands db) (products db ++ rows)
            (product_images db)).

Definition commit_images (pending : list (Z -> ProductImage.t))
    : Session (list ProductImage.t) :=
  fun db =>
    let rows := assign_ids (next_id (map ProductImage.id (product_images db))) pending in
    (Ok rows,
     mkDatabase (categories db) (brands db) (products db)
       (product_images db ++ rows)).

(* ================================================================== *)
(** ** [DataSeederService] *)

Module DataSeederService.

(** [for i, x in enumerate(l, start)] *)
Fixpoint enumerate {A B} (f : nat -> A -> B) (start : nat) (l : list A) : list B :=
  match l with
  | [] => []
  | x :: r => f start x :: enumerate f (S start) r
  end.

(** [rows[i].id], for the rows a commit has just returned: the seeder only
    uses indexes below the number of rows it added. *)
Definition id_at (ids : list Z) (i : nat) : Z := nth i ids 0.

Local Open Scope string_scope.

Definition cat_data_list : list (string * string * string) :=
  [ ("Graphics Cards", "graphics-cards", "GPU cards for gaming performance");
    ("Processors", "processors", "CPUs for gaming builds");
    ("Memory", "memory", "RAM modules for gaming systems");
    ("Storage", "storage", "SSDs and HDDs for games");
    ("Motherboards", "motherboards", "Motherboards for gaming builds");
    ("Power Supplies", "power-supplies", "PSUs for gaming systems");
    ("Cases", "cases", "PC cases for gaming builds");
    ("Peripherals", "peripherals", "Gaming keyboards, mice, and headsets") ].

Definition brand_data_list : list (string * string) :=
  [ ("NVIDIA", "Leading GPU manufacturer");
    ("AMD", "CPU and GPU manufacturer");
    ("Intel", "Leading CPU manufacturer");
    ("Corsair", "Gaming hardware manufacturer");
    ("ASUS", "Computer hardware manufacturer");
    ("MSI", "Gaming hardware specialist");
    ("Kingston", "Memory and storage solutions");
    ("Seagate", "Storage solutions") ].

(** [Category(name=..., slug=..., description=...)] *)
Definition new_category (name slug description : string) (now : datetime) (id : Z)
    : Category.t :=
  Category.mk id name description slug None true now.

(** [Brand(name=..., description=...)] *)
Definition new_brand (name description : string) (now : datetime) (id : Z) : Brand.t :=
  Brand.mk id name description None None true now.

(** The [Product] constructor on one entry of [products_data]: status,
    minimum stock level, the SEO fields
    and both timestamps take their defaults. *)
Definition new_product (name description sku : string) (price : Decimal)
    (original_price : option Decimal) (category_id brand_id : Z)
    (stock_quantity : Z) (slug : string) (specifications : list (string * string))
    (features : list string) (created updated : datetime) (id : Z) : Product.t :=
  Product.mk id name description sku price original_price ACTIVE
    (Some category_id) (Some brand_id) specifications features stock_quantity 5
    slug None None created updated.

(** The [ProductImage] constructor on one entry of [sample_images]. *)
Definition new_image (product_id : Z) (image_url alt_text : string)
    (is_primary : bool) (now : datetime) (id : Z) : ProductImage.t :=
  ProductImage.mk id product_id image_url alt_text is_primary 0 now.

Definition products_data (categories brands : list Z)
    : list (datetime -> datetime -> Z -> Product.t) :=
  [ new_product "RTX 4060 Gaming Graphics Card"
      "Affordable gaming GPU with excellent 1080p performance. Features 8GB GDDR6 memory and ray tracing support."
      "RTX4060-8G" 29999 (Some 34999)
      (id_at categories 0) (id_at brands 0) 15
      "rtx-4060-gaming-graphics-card"
      [ ("Memory", "8GB GDDR6"); ("Memory Interface", "128-bit");
        ("Base Clock", "1830 MHz"); ("Boost Clock", "2460 MHz");
        ("CUDA Cores", "3072") ]
      [ "Ray Tracing"; "DLSS 3"; "AV1 Encoding" ];
    new_product "Ryzen 5 5600X Processor"
      "6-core, 12-thread processor perfect for gaming. Excellent price-to-performance ratio."
      "R5-5600X" 19999 (Some 22999)
      (id_at categories 1) (id_at brands 1) 25
      "ryzen-5-5600x-processor"
      [ ("Cores", "6"); ("Threads", "12"); ("Base Clock", "3.7 GHz");
        ("Boost Clock", "4.6 GHz"); ("Cache", "32MB L3"); ("TDP", "65W") ]
      [ "PCIe 4.0"; "DDR4 Support"; "Unlocked Multiplier" ];
    new_product "16GB DDR4-3200 Gaming Memory Kit"
      "High-performance 16GB (2x8GB) DDR4 memory kit optimized for gaming."
      "DDR4-3200-16G" 7999 (Some 9999)
      (id_at categories 2) (id_at brands 3) 40
      "16gb-ddr4-3200-gaming-memory"
      [ ("Capacity", "16GB (2x8GB)"); ("Speed", "DDR4-3200");
        ("Timing", "16-18-18-36"); ("Voltage", "1.35V") ]
      [ "XMP 2.0"; "Heat Spreaders"; "Lifetime Warranty" ];
    new_product "1TB NVMe SSD Gaming Drive"
      "Fast 1TB NVMe SSD perfect for storing games and reducing load times."
      "NVME-1TB-GAME" 8999 (Some 11999)
      (id_at categories 3) (id_at brands 6) 30
      "1tb-nvme-ssd-gaming-drive"
      [ ("Capacity", "1TB"); ("Interface", "PCIe 3.0 x4");
        ("Sequential Read", "2100 MB/s"); ("Sequential Write", "1700 MB/s");
        ("Form Factor", "M.2 2280") ]
      [ "NVMe 1.3"; "3D NAND"; "5-Year Warranty" ];
    new_product "B550 Gaming Motherboard"
      "AMD B550 chipset motherboard with PCIe 4.0 support and gaming features."
      "B550-GAMING" 12999 (Some 15999)
      (id_at categories 4) (id_at brands 4) 20
      "b550-gaming-motherboard"
      [ ("Socket", "AM4"); ("Chipset", "AMD B550"); ("Memory", "DDR4-4400 (O.C.)");
        ("Expansion Slots", "PCIe 4.0 x16, PCIe 3.0 x16"); ("Form Factor", "ATX") ]
      [ "PCIe 4.0"; "USB 3.2 Gen2"; "WiFi 6"; "RGB Lighting" ];
    new_product "650W 80+ Gold Gaming PSU"
      "Fully modular 650W power supply with 80+ Gold efficiency rating."
      "PSU-650W-GOLD" 9999 (Some 12999)
      (id_at categories 5) (id_at brands 3) 18
      "650w-80plus-gold-gaming-psu"
      [ ("Wattage", "650W"); ("Efficiency", "80+ Gold"); ("Modular", "Fully Modular");
        ("Fan Size", "140mm"); ("Dimensions", "150 x 86 x 160 mm") ]
      [ "Zero RPM Mode"; "Japanese Capacitors"; "10-Year Warranty" ];
    new_product "Mid-Tower Gaming Case"
      "Stylish mid-tower case with tempered glass panel and RGB lighting."
      "CASE-MIDTOWER" 7999 None
      (id_at categories 6) (id_at brands 5) 12
      "mid-tower-gaming-case"
      [ ("Form Factor", "Mid-Tower"); ("Material", "Steel, Tempered Glass");
        ("Motherboard Support", "ATX, mATX, Mini-ITX"); ("GPU Clearance", "370mm");
        ("CPU Cooler Height", "165mm") ]
      [ "Tempered Glass"; "RGB Lighting"; "Tool-free Installation" ];
    new_product "Mechanical Gaming Keyboard"
      "RGB mechanical gaming keyboard with Cherry MX switches."
      "KB-MECH-RGB" 8999 (Some 10999)
      (id_at categories 7) (id_at brands 3) 35
      "mechanical-gaming-keyboard"
      [ ("Switch Type", "Cherry MX Red"); ("Backlighting", "RGB per-key");
        ("Layout", "Full-size"); ("Connection", "USB-C"); ("Polling Rate", "1000Hz") ]
      [ "N-Key Rollover"; "Media Controls"; "Software Customization" ] ].

Definition sample_images (products : list Z) : list (datetime -> Z -> ProductImage.t) :=
  [ new_image (id_at products 0)
      "https://images.unsplash.com/photo-1591488320449-011701bb6704?w=400"
      "RTX 4060 Graphics Card" true;
    new_image (id_at products 1)
      "https://images.unsplash.com/photo-1555617981-dac3880eac6e?w=400"
      "AMD Ryzen Processor" true;
    new_image (id_at products 2)
      "https://images.unsplash.com/photo-1562976540-1502c2145186?w=400"
      "DDR4 Memory Modules" true;
    new_image (id_at products 3)
      "https://images.unsplash.com/photo-1597872200969-2b65d56bd16b?w=400"
      "NVMe SSD Drive" true;
    new_image (id_at products 4)
      "https://images.unsplash.com/photo-1518717758536-85ae29035b6d?w=400"
      "Gaming Motherboard" true;
    new_image (id_at products 5)
      "https://images.unsplash.com/photo-1609694740799-82d2c0b2fcd8?w=400"
      "Power Supply Unit" true;
    new_image (id_at products 6)
      "https://images.unsplash.com/photo-1587202372634-32705e3bf49c?w=400"
      "Gaming PC Case" true;
    new_image (id_at products 7)
      "https://images.unsplash.com/photo-1541140532154-b024d705b90a?w=400"
      "Mechanical Gaming Keyboard" true ].

Local Close Scope string_scope.
Local Open Scope session_scope.

(** [utcnow k] is the [k]-th reading of the clock during the call: one per
    category, one per brand, two per product ([created_at], then
    [updated_at]) and one per image. *)
Definition seed_sample_data (utcnow : nat -> datetime) : Session unit :=
  existing_products <- first_product ;;
  match existing_products with
  | Some _ => ret tt
  | None =>
      categories <-
        commit_categories
          (enumerate
             (fun k '(name, slug, description) =>
                new_category name slug description (utcnow k))
             0 cat_data_list) ;;
      brands <-
        commit_brands
          (enumerate
             (fun k '(name, description) => new_brand name description (utcnow k))
             8 brand_data_list) ;;
      products <-
        commit_products
          (enumerate
             (fun k product_data =>
                product_data (utcnow (16 + 2 * k)%nat) (utcnow (17 + 2 * k)%nat))
             0
             (products_data (map Category.id categories) (map Brand.id brands))) ;;
      _ <-
        commit_images
          (enumerate (fun k img_data => img_data (utcnow k)) 32
             (sample_images (map Product.id products))) ;;
      ret tt
  end.

(** The rows one run adds to a store without products, given the first
    free key of each table: what the four commits flush. *)
Definition seeded_categories (utcnow : nat -> datetime) (first : Z)
    : list Category.t :=
  assign_ids first
    (enumerate
       (fun k '(name, slug, description) =>
          new_category name slug description (utcnow k))
       0 cat_data_list).

Definition seeded_brands (utcnow : nat -> datetime) (first : Z) : list Brand.t :=
  assign_ids first
    (enumerate (fun k '(name, description) => new_brand name description (utcnow k))
       8 brand_data_list).

Definition seeded_products (utcnow : nat -> datetime)
    (categories : list Category.t) (brands : list Brand.t) (first : Z)
    : list Product.t :=
  assign_ids first
    (enumerate
       (fun k product_data =>
          product_data (utcnow (16 + 2 * k)%nat) (utcnow (17 + 2 * k)%nat))
       0
       (products_data (map Category.id categories) (map Brand.id brands))).

Definition seeded_images (utcnow : nat -> datetime) (products : list Product.t)
    (first : Z) : list ProductImage.t :=
  assign_ids first
    (enumerate (fun k img_data => img_data (utcnow k)) 32
       (sample_images (map Product.id products))).

(** Some stored category or brand already carries a unique value that the
    seeder is about to insert. *)
Definition collides (db : Database) : bool :=
  violates_unique (map Category.name (categories db))
    (map (fun '(name, _, _) => name) cat_data_list)
  || violates_unique (map Category.slug (categories db))
       (map (fun '(_, slug, _) => slug) cat_data_list)
  || violates_unique (map Brand.name (brands db)) (map fst brand_data_list).

(** [brand_positions[i]] is the index in [brands] that the [i]-th entry of
    [products_data] reads its [brand_id] from. *)
Definition brand_positions : list nat := [0; 1; 3; 6; 4; 3; 5; 3]%nat.

End DataSeederService.

(** The unique checks of the first and of the second commit of the seeder. *)
Definition categories_collide (db : Database) : bool :=
  violates_unique (map Category.name (categories db))
    (map (fun '(name, _, _) => name) DataSeederService.cat_data_list)
  || violates_unique (map Category.slug (categories db))
       (map (fun '(_, slug, _) => slug) DataSeederService.cat_data_list).

Definition brands_collide (db : Database) : bool :=
  violates_unique (map Brand.name (brands db))
    (map fst DataSeederService.brand_data_list).

(** The four ways a run of the seeder ends: it finds a product and does
    nothing; the first commit raises; the second commit raises after the
    categories were stored; or all four commits go through. *)
Inductive seed_outcome (utcnow : nat -> datetime) (db : Database)
    : Result unit * Database -> Prop :=
| seed_skipped :
    products db <> [] ->
    seed_outcome utcnow db (Ok tt, db)
| seed_refused_categories column :
    products db = [] -> categories_collide db = true ->
    seed_outcome utcnow db (Raise (IntegrityError "categories" column), db)
| seed_refused_brands :
    products db = [] -> categories_collide db = false -> brands_collide db = true ->
    seed_outcome utcnow db
      (Raise (IntegrityError "brands" "name"),
       mkDatabase
         (categories db
          ++ DataSeederService.seeded_categories utcnow
               (next_id (map Category.id (categories db))))
         (brands db) (products db) (product_images db))
| seed_stored :
    products db = [] -> categories_collide db = false -> brands_collide db = false ->
    let cs := DataSeederService.seeded_categories utcnow
                (next_id (map Category.id (categories db))) in
    let bs := DataSeederService.seeded_brands utcnow
                (next_id (map Brand.id (brands db))) in
    let ps := DataSeederService.seeded_products utcnow cs bs 1 in
    let ims := DataSeederService.seeded_images utcnow ps
                 (next_id (map ProductImage.id (product_images db))) in
    seed_outcome utcnow db
      (Ok tt,
       mkDatabase (categories db ++ cs) (brands db ++ bs) ps
         (product_images db ++ ims)).

(* ================================================================== *)
(** ** Concrete stores used to run the services *)

Module Examples.

(** A clock that advances by one microsecond per reading. *)
Definition clock (k : nat) : datetime := Z.of_nat k.

(** The empty store after one run of the seeder. *)
Definition seeded_db : Database :=
  snd (DataSeederService.seed_sample_data clock empty_db).

Local Open Scope string_scope.

Definition plain_product (id : Z) (name : string) (price : Decimal)
    (status : ProductStatus) (created : datetime) : Product.t :=
  Product.mk id name "" name price None status None None [] [] 1 5 name None None
    created created.

(** One product whose only image is not flagged as primary. *)
Definition unflagged_image : ProductImage.t :=
  ProductImage.mk 1 1 "https://example.org/a.png" "" false 0 0.

Definition unflagged_db : Database :=
  mkDatabase [] [] [plain_product 1 "fan" 1500 ACTIVE 0] [unflagged_image].

(** A catalogue whose only product is discontinued. *)
Definition discontinued_db : Database :=
  mkDatabase [] [] [plain_product 1 "floppy drive" 5000 DISCONTINUED 0] [].

(** Five products created at the same instant. *)
Definition five_tied_db : Database :=
  mkDatabase [] []
    [ plain_product 1 "fan" 1500 ACTIVE 7; plain_product 2 "cable" 500 ACTIVE 7;
      plain_product 3 "riser" 900 ACTIVE 7; plain_product 4 "bracket" 300 ACTIVE 7;
      plain_product 5 "paste" 700 ACTIVE 7 ]
    [].

(** A store that holds a category named like a seeded one and no product. *)
Definition memory_only_db : Database :=
  mkDatabase [Category.mk 1 "Memory" "" "ram" None true 0] [] [] [].

(** The filter of the example scenario: in stock, at most 200.00. *)
Definition in_stock_up_to_200 : ProductFilter.t :=
  ProductFilter.mk None None None (Some 20000) None true None.

(** The third category the seeder stores. *)
Definition memory_category : Category.t :=
  Category.mk 3 "Memory" "RAM modules for gaming systems" "memory" None true 2.

(** A filter with every predicate present but the search. *)
Definition memory_filter : ProductFilter.t :=
  ProductFilter.mk (Some 3) (Some 4) (Some 5000) (Some 20000) (Some ACTIVE) true None.

(** The same filter with a search for "ddr4". *)
Definition memory_search_filter : ProductFilter.t :=
  ProductFilter.mk (Some 3) (Some 4) (Some 5000) (Some 20000) (Some ACTIVE) true
    (Some "ddr4").

Definition page_of (r : Result (list ProductSummary.t)) : list ProductSummary.t :=
  match r with
  | Ok page => page
  | Raise _ => []
  end.

Definition memory_page : list ProductSummary.t :=
  Eval vm_compute in
    page_of (ProductService.get_products order_ties_in_storage_order seeded_db
               (Some memory_filter) 20 0).

Definition memory_summary : ProductSummary.t :=
  Eval vm_compute in
    hd (ProductService.summary seeded_db (plain_product 0 "" 0 ACTIVE 0)) memory_page.

(** The third product the seeder stores. *)
Definition memory_product : Product.t :=
  Eval vm_compute in nth 2 (products seeded_db) (plain_product 0 "" 0 ACTIVE 0).

(** The two pages of the pagination test, each under another tie order. *)
Definition first_page : list ProductSummary.t :=
  Eval vm_compute in
    page_of (ProductService.get_products order_ties_in_storage_order seeded_db
               None 3 0).

Definition second_page : list ProductSummary.t :=
  Eval vm_compute in
    page_of (ProductService.get_products order_ties_in_reverse_order seeded_db
               None 3 3).

End Examples.

(* ================================================================== *)
(** * Properties *)

(** ** Orderings *)

Lemma insert_before_ties_perm p l : Permutation (p :: l) (insert_before_ties p l).
Proof.
  induction l as [|q r IH]; simpl; [reflexivity|].
  destruct (Product.created_at q <=? Product.created_at p); [reflexivity|].
  rewrite perm_swap. now constructor.
Qed.

Lemma insert_after_ties_perm p l : Permutation (p :: l) (insert_after_ties p l).
Proof.
  induction l as [|q r IH]; simpl; [reflexivity|].
  destruct (Product.created_at q <? Product.created_at p); [reflexivity|].
  rewrite perm_swap. now constructor.
Qed.

Lemma sorted_cons_inv p l :
  StronglySorted created_at_desc (p :: l) ->
  StronglySorted created_at_desc l /\ Forall (created_at_desc p) l.
Proof. intros H. inversion H; subst. now split. Qed.

Lemma created_at_desc_trans p q l :
  created_at_desc p q -> Forall (created_at_desc q) l -> Forall (created_at_desc p) l.
Proof.
  unfold created_at_desc. intros Hpq H.
  eapply Forall_impl; [|exact H]. simpl. intros a Ha. lia.
Qed.

Lemma insert_before_ties_sorted p l :
  StronglySorted created_at_desc l ->
  StronglySorted created_at_desc (insert_before_ties p l).
Proof.
  induction l as [|q r IH]; simpl; intros Hs.
  - repeat constructor.
  - apply sorted_cons_inv in Hs as [Hr Hq].
    destruct (Z.leb_spec (Product.created_at q) (Product.created_at p)) as [Hle|Hlt].
    + constructor; [now constructor|].
      constructor; [exact Hle|].
      eapply created_at_desc_trans; [exact Hle|exact Hq].
    + constructor; [now apply IH|].
      eapply Permutation_Forall; [apply insert_before_ties_perm|].
      constructor; [unfold created_at_desc; lia|exact Hq].
Qed.

Lemma insert_after_ties_sorted p l :
  StronglySorted created_at_desc l ->
  StronglySorted created_at_desc (insert_after_ties p l).
Proof.
  induction l as [|q r IH]; simpl; intros Hs.
  - repeat constructor.
  - apply sorted_cons_inv in Hs as [Hr Hq].
    destruct (Z.ltb_spec (Product.created_at q) (Product.created_at p)) as [Hlt|Hle].
    + assert (Hpq : created_at_desc p q) by (unfold created_at_desc; lia).
      constructor; [now constructor|].
      constructor; [exact Hpq|].
      eapply created_at_desc_trans; [exact Hpq|exact Hq].
    + constructor; [now apply IH|].
      eapply Permutation_Forall; [apply insert_after_ties_perm|].
      constructor; [exact Hle|exact Hq].
Qed.

Lemma order_ties_in_storage_order_ok : order_by_contract order_ties_in_storage_order.
Proof.
  intros rows. unfold order_ties_in_storage_order.
  induction rows as [|p rows [IHp IHs]]; simpl.
  - split; constructor.
  - split.
    + etransitivity; [|apply insert_before_ties_perm]. now constructor.
    + now apply insert_before_ties_sorted.
Qed.

Lemma order_ties_in_reverse_order_ok : order_by_contract order_ties_in_reverse_order.
Proof.
  intros rows. unfold order_ties_in_reverse_order.
  induction rows as [|p rows [IHp IHs]]; simpl.
  - split; constructor.
  - split.
    + etransitivity; [|apply insert_after_ties_perm]. now constructor.
    + now apply insert_after_ties_sorted.
Qed.

Lemma reorders_id {A} : reorders (fun rows : list A => rows).
Proof. intros rows. reflexivity. Qed.

(** ** Pages and [WHERE] clauses *)

Lemma In_firstn {A} (n : nat) (l : list A) (x : A) : In x (firstn n l) -> In x l.
Proof.
  intros H. rewrite <- (firstn_skipn n l). apply in_or_app. now left.
Qed.

Lemma In_skipn {A} (n : nat) (l : list A) (x : A) : In x (skipn n l) -> In x l.
Proof.
  intros H. rewrite <- (firstn_skipn n l). apply in_or_app. now right.
Qed.

Lemma In_page {A} (n m : nat) (l : list A) (x : A) :
  In x (firstn n (skipn m l)) -> In x l.
Proof. intros H. eapply In_skipn, In_firstn, H. Qed.

(** The query returns whenever limit and offset are in the range of the
    store, and raises otherwise. *)
Lemma get_products_ok order_by db filters limit offset :
  0 <= limit < bigint_bound -> 0 <= offset < bigint_bound ->
  ProductService.get_products order_by db filters limit offset
  = Ok (map (ProductService.summary db)
          (firstn (Z.to_nat limit)
             (skipn (Z.to_nat offset)
                (order_by (ProductService.matching db filters))))).
Proof.
  intros Hl Ho. unfold ProductService.get_products.
  destruct (Z.ltb_spec limit 0); [lia|].
  destruct (Z.ltb_spec offset 0); [lia|].
  destruct (Z.leb_spec bigint_bound limit); [lia|].
  destruct (Z.leb_spec bigint_bound offset); [lia|].
  reflexivity.
Qed.

Lemma get_products_refused order_by db filters limit offset :
  limit < 0 \/ offset < 0 \/ bigint_bound <= limit \/ bigint_bound <= offset ->
  ProductService.get_products order_by db filters limit offset = Raise DataError.
Proof.
  intros H. unfold ProductService.get_products.
  destruct (Z.ltb_spec limit 0); [reflexivity|].
  destruct (Z.ltb_spec offset 0); [reflexivity|].
  destruct (Z.leb_spec bigint_bound limit); [reflexivity|].
  destruct (Z.leb_spec bigint_bound offset); [reflexivity|].
  lia.
Qed.

Lemma get_products_inv order_by db filters limit offset r :
  ProductService.get_products order_by db filters limit offset = Ok r ->
  0 <= limit < bigint_bound /\ 0 <= offset < bigint_bound /\
  r = map (ProductService.summary db)
        (firstn (Z.to_nat limit)
           (skipn (Z.to_nat offset) (order_by (ProductService.matching db filters)))).
Proof.
  intros H.
  destruct (Z_lt_le_dec limit 0) as [Hl|Hl];
    [rewrite get_products_refused in H by auto; discriminate|].
  destruct (Z_lt_le_dec offset 0) as [Ho|Ho];
    [rewrite get_products_refused in H by auto; discriminate|].
  destruct (Z_lt_le_dec limit bigint_bound) as [Hl'|Hl'];
    [|rewrite get_products_refused in H by auto; discriminate].
  destruct (Z_lt_le_dec offset bigint_bound) as [Ho'|Ho'];
    [|rewrite get_products_refused in H by auto; discriminate].
  rewrite get_products_ok in H by lia. injection H as <-. auto.
Qed.


Lemma in_store_range n : 0 <= n <= 1000000 -> 0 <= n < bigint_bound.
Proof. unfold bigint_bound. lia. Qed.

Lemma column_eq_true col v : ProductService.column_eq col v = true -> col = Some v.
Proof.
  destruct col as [x|]; simpl; [|discriminate].
  intros H. apply Z.eqb_eq in H. now subst.
Qed.

Lemma ProductStatus_eqb_eq a b : ProductStatus_eqb a b = true <-> a = b.
Proof. destruct a, b; simpl; split; congruence. Qed.

Lemma satisfies_where_clauses f p :
  ProductService.satisfies (ProductService.where_clauses f) p = true ->
  (forall c, ProductFilter.category_id f = Some c -> Product.category_id p = Some c) /\
  (forall b, ProductFilter.brand_id f = Some b -> Product.brand_id p = Some b) /\
  (forall m, ProductFilter.min_price f = Some m -> m <= Product.price p) /\
  (forall m, ProductFilter.max_price f = Some m -> Product.price p <= m) /\
  (forall s, ProductFilter.status f = Some s -> Product.status p = s) /\
  (ProductFilter.in_stock_only f = true -> 0 < Product.stock_quantity p).
Proof.
  unfold ProductService.satisfies, ProductService.where_clauses.
  rewrite !forallb_app, !andb_true_iff.
  intros (Hc & Hb & Hmin & Hmax & Hs & Hstock & _).
  repeat split.
  - intros c E. rewrite E in Hc. simpl in Hc. rewrite andb_true_r in Hc.
    now apply column_eq_true.
  - intros b E. rewrite E in Hb. simpl in Hb. rewrite andb_true_r in Hb.
    now apply column_eq_true.
  - intros m E. rewrite E in Hmin. simpl in Hmin. rewrite andb_true_r in Hmin.
    apply Z.geb_le in Hmin. exact Hmin.
  - intros m E. rewrite E in Hmax. simpl in Hmax. rewrite andb_true_r in Hmax.
    now apply Z.leb_le.
  - intros s E. rewrite E in Hs. simpl in Hs. rewrite andb_true_r in Hs.
    now apply ProductStatus_eqb_eq.
  - intros E. rewrite E in Hstock. simpl in Hstock. rewrite andb_true_r in Hstock.
    apply Z.gtb_lt in Hstock. exact Hstock.
Qed.

(** Every summary of a page is the summary of a stored product that the
    [WHERE] part kept. *)
Lemma get_products_In order_by db filters limit offset r s :
  order_by_contract order_by ->
  ProductService.get_products order_by db filters limit offset = Ok r ->
  In s r ->
  exists p, In p (ProductService.matching db filters) /\ s = ProductService.summary db p.
Proof.
  intros Hord Hget Hin.
  apply get_products_inv in Hget as (_ & _ & ->).
  apply in_map_iff in Hin as (p & <- & Hp).
  exists p. split; [|reflexivity].
  apply In_page in Hp.
  eapply Permutation_in; [symmetry; apply Hord|exact Hp].
Qed.

Lemma matching_In db filters p :
  In p (ProductService.matching db filters) -> In p (products db).
Proof. unfold ProductService.matching. intros H. now apply filter_In in H. Qed.

(** C1. Every summary returned by [get_products] under a filter is the
    summary of a stored product that meets each predicate present in the
    filter: price at least [min_price], price at most [max_price], positive
    stock under [in_stock_only], the filter's status, category and brand. *)
Theorem get_products_meets_filter :
  forall order_by db f limit offset r s,
    order_by_contract order_by ->
    ProductService.get_products order_by db (Some f) limit offset = Ok r ->
    In s r ->
    exists p,
      In p (products db) /\ s = ProductService.summary db p /\
      (forall m, ProductFilter.min_price f = Some m -> m <= ProductSummary.price s) /\
      (forall m, ProductFilter.max_price f = Some m -> ProductSummary.price s <= m) /\
      (ProductFilter.in_stock_only f = true -> 0 < ProductSummary.stock_quantity s) /\
      (forall st, ProductFilter.status f = Some st -> ProductSummary.status s = st) /\
      (forall c, ProductFilter.category_id f = Some c -> Product.category_id p = Some c) /\
      (forall b, ProductFilter.brand_id f = Some b -> Product.brand_id p = Some b).
Proof.
  intros order_by db f limit offset r s Hord Hget Hin.
  destruct (get_products_In _ _ _ _ _ _ _ Hord Hget Hin) as (p & Hp & ->).
  exists p. split; [now apply matching_In in Hp|]. split; [reflexivity|].
  unfold ProductService.matching in Hp. apply filter_In in Hp as [_ Hsat].
  apply satisfies_where_clauses in Hsat as (Hc & Hb & Hmin & Hmax & Hs & Hstock).
  simpl. repeat split; assumption.
Qed.

Lemma get_products_meets_filter_witness :
  order_by_contract order_ties_in_storage_order /\
  ProductService.get_products order_ties_in_storage_order Examples.seeded_db
    (Some Examples.memory_filter) 20 0 = Ok Examples.memory_page /\
  In Examples.memory_summary Examples.memory_page /\
  exists p,
    In p (products Examples.seeded_db) /\
    Examples.memory_summary = ProductService.summary Examples.seeded_db p /\
    (forall m, Some 5000 = Some m -> m <= ProductSummary.price Examples.memory_summary) /\
    (forall m, Some 20000 = Some m -> ProductSummary.price Examples.memory_summary <= m) /\
    (true = true -> 0 < ProductSummary.stock_quantity Examples.memory_summary) /\
    (forall st, Some ACTIVE = Some st -> ProductSummary.status Examples.memory_summary = st) /\
    (forall c, Some 3 = Some c -> Product.category_id p = Some c) /\
    (forall b, Some 4 = Some b -> Product.brand_id p = Some b).
Proof.
  split; [exact order_ties_in_storage_order_ok|].
  split; [reflexivity|].
  split; [left; reflexivity|].
  apply (get_products_meets_filter order_ties_in_storage_order Examples.seeded_db
           Examples.memory_filter 20 0 Examples.memory_page Examples.memory_summary).
  - exact order_ties_in_storage_order_ok.
  - reflexivity.
  - left. reflexivity.
Defined.

(** ** Primary images *)

Lemma primary_image_None db pid :
  (forall im, In im (product_images db) -> ProductImage.product_id im = pid ->
              ProductImage.is_primary im = false) ->
  ProductService.primary_image db pid = None.
Proof.
  intros H. unfold ProductService.primary_image.
  destruct (find _ _) as [im|] eqn:E; [|reflexivity].
  apply find_some in E as [Hin Hb].
  apply andb_true_iff in Hb as [Hid Hprim].
  apply Z.eqb_eq in Hid. rewrite (H im Hin Hid) in Hprim. discriminate.
Qed.

Lemma primary_image_Some db pid im :
  ProductService.primary_image db pid = Some im ->
  In im (product_images db) /\ ProductImage.product_id im = pid /\
  ProductImage.is_primary im = true.
Proof.
  unfold ProductService.primary_image. intros E.
  apply find_some in E as [Hin Hb].
  apply andb_true_iff in Hb as [Hid Hprim].
  apply Z.eqb_eq in Hid. auto.
Qed.

(** C2, as stated, fails: the only image of product 1 is its first image and
    is not flagged, yet the summary carries no image URL. *)
Lemma summary_has_no_first_image_fallback :
  (forall order_by_display_order, reorders order_by_display_order ->
     hd_error (ProductService.get_product_images order_by_display_order
                 Examples.unflagged_db 1) = Some Examples.unflagged_image) /\
  ProductImage.is_primary Examples.unflagged_image = false /\
  exists s,
    ProductService.get_products order_ties_in_storage_order Examples.unflagged_db
      None 20 0 = Ok [s] /\
    ProductSummary.id s = 1 /\
    ProductSummary.primary_image_url s = None /\
    ProductSummary.primary_image_url s
      <> Some (ProductImage.image_url Examples.unflagged_image).
Proof.
  split.
  - intros ord Hord. unfold ProductService.get_product_images. simpl.
    specialize (Hord [Examples.unflagged_image]).
    apply Permutation_length_1_inv in Hord. now rewrite Hord.
  - split; [reflexivity|].
    eexists. split; [reflexivity|]. simpl. repeat split. discriminate.
Qed.

(** C2, amended. The summary of a returned product carries the URL of an
    image of that product flagged [is_primary] when it carries one, and
    carries none when no image of the product is flagged, whether or not the
    product has images. *)
Theorem summary_primary_image_url :
  forall order_by db filters limit offset r s,
    order_by_contract order_by ->
    ProductService.get_products order_by db filters limit offset = Ok r ->
    In s r ->
    exists p,
      In p (products db) /\ s = ProductService.summary db p /\
      ((forall im, In im (product_images db) ->
                   ProductImage.product_id im = Product.id p ->
                   ProductImage.is_primary im = false) ->
       ProductSummary.primary_image_url s = None) /\
      (forall url, ProductSummary.primary_image_url s = Some url ->
         exists im, In im (product_images db) /\
                    ProductImage.product_id im = Product.id p /\
                    ProductImage.is_primary im = true /\
                    ProductImage.image_url im = url).
Proof.
  intros order_by db filters limit offset r s Hord Hget Hin.
  destruct (get_products_In _ _ _ _ _ _ _ Hord Hget Hin) as (p & Hp & ->).
  exists p. split; [now apply matching_In in Hp|]. split; [reflexivity|].
  simpl. split.
  - intros Hnone. now rewrite primary_image_None.
  - intros url Hurl.
    destruct (ProductService.primary_image db (Product.id p)) as [im|] eqn:E;
      [|discriminate].
    apply primary_image_Some in E as (Hi & Hid & Hprim).
    exists im. simpl in Hurl. injection Hurl as <-. auto.
Qed.

Lemma summary_primary_image_url_witness :
  order_by_contract order_ties_in_storage_order /\
  ProductService.get_products order_ties_in_storage_order Examples.unflagged_db
    None 20 0
  = Ok [ProductService.summary Examples.unflagged_db
          (Examples.plain_product 1 "fan" 1500 ACTIVE 0)] /\
  exists p,
    In p (products Examples.unflagged_db) /\
    ProductService.summary Examples.unflagged_db
      (Examples.plain_product 1 "fan" 1500 ACTIVE 0)
    = ProductService.summary Examples.unflagged_db p.
Proof.
  split; [exact order_ties_in_storage_order_ok|].
  split; [reflexivity|].
  destruct (summary_primary_image_url order_ties_in_storage_order
              Examples.unflagged_db None 20 0
              [ProductService.summary Examples.unflagged_db
                 (Examples.plain_product 1 "fan" 1500 ACTIVE 0)]
              (ProductService.summary Examples.unflagged_db
                 (Examples.plain_product 1 "fan" 1500 ACTIVE 0))
              order_ties_in_storage_order_ok eq_refl (or_introl eq_refl))
    as (p & Hp & Hs & _).
  exists p. split; assumption.
Defined.

(** ** Price range *)

Lemma list_min_spec rest : forall first,
  In (ProductService.list_min first rest) (first :: rest) /\
  Forall (fun y => ProductService.list_min first rest <= y) (first :: rest).
Proof.
  unfold ProductService.list_min.
  induction rest as [|a rest IH]; intros first; simpl.
  - split; [now left|]. constructor; [lia|constructor].
  - destruct (IH (Z.min first a)) as [Hin Hall].
    apply Forall_cons_iff in Hall as [Hm Hall]. split.
    + destruct Hin as [Hin|Hin]; [|now right; right].
      rewrite <- Hin. destruct (Z.min_spec first a) as [[_ ->]|[_ ->]]; auto.
    + repeat constructor; try lia. exact Hall.
Qed.

Lemma list_max_spec rest : forall first,
  In (ProductService.list_max first rest) (first :: rest) /\
  Forall (fun y => y <= ProductService.list_max first rest) (first :: rest).
Proof.
  unfold ProductService.list_max.
  induction rest as [|a rest IH]; intros first; simpl.
  - split; [now left|]. constructor; [lia|constructor].
  - destruct (IH (Z.max first a)) as [Hin Hall].
    apply Forall_cons_iff in Hall as [Hm Hall]. split.
    + destruct Hin as [Hin|Hin]; [|now right; right].
      rewrite <- Hin. destruct (Z.max_spec first a) as [[_ ->]|[_ ->]]; auto.
    + repeat constructor; try lia. exact Hall.
Qed.

Lemma active_filter_In db p :
  In p (filter is_active_product (products db)) <->
  In p (products db) /\ Product.status p = ACTIVE.
Proof.
  rewrite filter_In. unfold is_active_product. now rewrite ProductStatus_eqb_eq.
Qed.

(** C3, as stated, fails: a catalogue whose only product is discontinued is
    not empty, and the range returned for it is the fallback, whose bounds
    are the price of no product. *)
Lemma price_range_of_inactive_catalogue :
  products Examples.discontinued_db <> [] /\
  ProductService.get_price_range Examples.discontinued_db
  = ProductService.PriceRange.mk 0 100000 /\
  ~ In (ProductService.PriceRange.min
          (ProductService.get_price_range Examples.discontinued_db))
       (map Product.price (products Examples.discontinued_db)) /\
  ~ In (ProductService.PriceRange.max
          (ProductService.get_price_range Examples.discontinued_db))
       (map Product.price (products Examples.discontinued_db)).
Proof.
  repeat split.
  - discriminate.
  - simpl. intros [H|[]]. discriminate.
  - simpl. intros [H|[]]. discriminate.
Qed.

(** C3, amended. [get_price_range] returns min 0 and max 1000.00 when the
    catalogue holds no ACTIVE product, in particular when it is empty; when
    it holds one, the range has min <= max, both bounds are prices of ACTIVE
    products of the catalogue and every ACTIVE price lies between them. *)
Theorem get_price_range_spec :
  forall db,
    let range := ProductService.get_price_range db in
    (products db = [] -> range = ProductService.PriceRange.mk 0 100000) /\
    ((forall p, In p (products db) -> Product.status p <> ACTIVE) ->
     range = ProductService.PriceRange.mk 0 100000) /\
    ((exists p, In p (products db) /\ Product.status p = ACTIVE) ->
     ProductService.PriceRange.min range <= ProductService.PriceRange.max range /\
     (exists p, In p (products db) /\ Product.status p = ACTIVE /\
                Product.price p = ProductService.PriceRange.min range) /\
     (exists p, In p (products db) /\ Product.status p = ACTIVE /\
                Product.price p = ProductService.PriceRange.max range) /\
     (forall p, In p (products db) -> Product.status p = ACTIVE ->
                ProductService.PriceRange.min range <= Product.price p
                <= ProductService.PriceRange.max range)).
Proof.
  intros db range.
  assert (Hnone : (forall p, In p (products db) -> Product.status p <> ACTIVE) ->
                  range = ProductService.PriceRange.mk 0 100000).
  { intros H. subst range. unfold ProductService.get_price_range.
    fold is_active_product.
    destruct (filter is_active_product (products db)) as [|p l] eqn:E; [reflexivity|].
    assert (Hp : In p (filter is_active_product (products db)))
      by (rewrite E; now left).
    apply active_filter_In in Hp as [Hp Hs]. now destruct (H p Hp). }
  split; [|split; [exact Hnone|]].
  - intros E. apply Hnone. rewrite E. intros p [].
  - intros (p0 & Hp0 & Hs0).
    assert (Hact : In p0 (filter is_active_product (products db)))
      by now apply active_filter_In.
    subst range. unfold ProductService.get_price_range. fold is_active_product.
    destruct (filter is_active_product (products db)) as [|a l] eqn:E;
      [destruct Hact|].
    cbn [map ProductService.PriceRange.min ProductService.PriceRange.max].
    destruct (list_min_spec (map Product.price l) (Product.price a)) as [Hmin Hle].
    destruct (list_max_spec (map Product.price l) (Product.price a)) as [Hmax Hge].
    change (Product.price a :: map Product.price l)
      with (map Product.price (a :: l)) in *.
    rewrite Forall_forall in Hle, Hge.
    assert (Hbound : forall p, In p (products db) -> Product.status p = ACTIVE ->
              ProductService.list_min (Product.price a) (map Product.price l)
              <= Product.price p
              <= ProductService.list_max (Product.price a) (map Product.price l)).
    { intros p Hp Hs.
      assert (Hin : In (Product.price p) (map Product.price (a :: l))).
      { apply in_map. rewrite <- E. now apply active_filter_In. }
      split; [now apply Hle|now apply Hge]. }
    split; [|split; [|split; [|exact Hbound]]].
    + specialize (Hbound p0 Hp0 Hs0). lia.
    + apply in_map_iff in Hmin as (p & Hprice & Hp).
      rewrite <- E in Hp. apply active_filter_In in Hp as [Hp Hs].
      exists p. auto.
    + apply in_map_iff in Hmax as (p & Hprice & Hp).
      rewrite <- E in Hp. apply active_filter_In in Hp as [Hp Hs].
      exists p. auto.
Qed.

Lemma get_price_range_spec_witness :
  (exists p, In p (products Examples.seeded_db) /\ Product.status p = ACTIVE) /\
  ProductService.PriceRange.min (ProductService.get_price_range Examples.seeded_db)
  <= ProductService.PriceRange.max (ProductService.get_price_range Examples.seeded_db).
Proof.
  assert (H : exists p, In p (products Examples.seeded_db) /\ Product.status p = ACTIVE).
  { eexists. split; [left; reflexivity|reflexivity]. }
  split; [exact H|].
  destruct (get_price_range_spec Examples.seeded_db) as (_ & _ & Hsome).
  destruct (Hsome H) as [Hle _]. exact Hle.
Defined.

(** ** Lookups by primary key *)

Lemma session_get_absent {A} (pk_of : A -> Z) (table : list A) (pk : Z) :
  ~ In pk (map pk_of table) -> session_get pk_of table pk = None.
Proof.
  intros Habsent. unfold session_get.
  destruct (find _ _) as [row|] eqn:E; [|reflexivity].
  apply find_some in E as [Hin Heq]. apply Z.eqb_eq in Heq.
  destruct Habsent. rewrite <- Heq. now apply in_map.
Qed.

(** C9. For an id that no row of the table carries, [get_product_by_id],
    [get_category_by_id] and [get_brand_by_id] return [None]; the three
    lookups are total and have no error outcome. *)
Theorem get_by_id_absent :
  forall db id,
    (~ In id (map Product.id (products db)) ->
     ProductService.get_product_by_id db id = None) /\
    (~ In id (map Category.id (categories db)) ->
     CategoryService.get_category_by_id db id = None) /\
    (~ In id (map Brand.id (brands db)) ->
     BrandService.get_brand_by_id db id = None).
Proof.
  intros db id. repeat split; intros H; now apply session_get_absent.
Qed.

Lemma get_by_id_absent_witness :
  ~ In 999999 (map Product.id (products Examples.seeded_db)) /\
  ~ In 999999 (map Category.id (categories Examples.seeded_db)) /\
  ~ In 999999 (map Brand.id (brands Examples.seeded_db)) /\
  ProductService.get_product_by_id Examples.seeded_db 999999 = None /\
  CategoryService.get_category_by_id Examples.seeded_db 999999 = None /\
  BrandService.get_brand_by_id Examples.seeded_db 999999 = None.
Proof.
  assert (Hp : ~ In 999999 (map Product.id (products Examples.seeded_db))).
  { simpl. intros H. repeat (destruct H as [H|H]; [discriminate H|]). exact H. }
  assert (Hc : ~ In 999999 (map Category.id (categories Examples.seeded_db))).
  { simpl. intros H. repeat (destruct H as [H|H]; [discriminate H|]). exact H. }
  assert (Hb : ~ In 999999 (map Brand.id (brands Examples.seeded_db))).
  { simpl. intros H. repeat (destruct H as [H|H]; [discriminate H|]). exact H. }
  destruct (get_by_id_absent Examples.seeded_db 999999) as (H1 & H2 & H3).
  repeat split; auto.
Defined.

(** ** Product counts *)

Lemma filter_filter {A} (f g : A -> bool) (l : list A) :
  filter f (filter g l) = filter (fun x => g x && f x) l.
Proof.
  induction l as [|x l IH]; simpl; [reflexivity|].
  destruct (g x); simpl; [destruct (f x)|]; now rewrite IH.
Qed.

Lemma status_partition (l : list Product.t) :
  List.length l
  = (List.length (filter (fun p => ProductStatus_eqb (Product.status p) ACTIVE) l)
     + List.length (filter (fun p => ProductStatus_eqb (Product.status p) OUT_OF_STOCK) l)
     + List.length (filter (fun p => ProductStatus_eqb (Product.status p) DISCONTINUED) l))%nat.
Proof.
  induction l as [|p l IH]; simpl; [reflexivity|].
  destruct (Product.status p); simpl; lia.
Qed.

Lemma count_by_status (owned : Product.t -> bool) (l : list Product.t) :
  (List.length (filter (fun p => owned p && has_status ACTIVE p) l)
   + List.length (filter (fun p => owned p && has_status OUT_OF_STOCK p) l)
   + List.length (filter (fun p => owned p && has_status DISCONTINUED p) l))%nat
  = List.length (filter owned l).
Proof.
  rewrite (status_partition (filter owned l)), !filter_filter. reflexivity.
Qed.

(** C10. The [product_count] attached to a category (a brand) is the number
    of products of that category (brand) whose status is ACTIVE: together
    with the out-of-stock and the discontinued products of the entity, which
    it leaves out, it makes up all products of the entity.  Every active
    category (brand) gets a count. *)
Theorem product_counts_count_active_only :
  forall order_categories order_brands db,
    reorders order_categories -> reorders order_brands ->
    (forall c n,
       In (c, n) (CategoryService.get_categories_with_product_counts
                    order_categories db) ->
       In c (categories db) /\ Category.is_active c = true /\
       n = List.length
             (filter (fun p => in_category c p && has_status ACTIVE p) (products db)) /\
       (n + List.length
              (filter (fun p => in_category c p && has_status OUT_OF_STOCK p)
                 (products db))
          + List.length
              (filter (fun p => in_category c p && has_status DISCONTINUED p)
                 (products db)))%nat
       = List.length (filter (in_category c) (products db))) /\
    (forall c, In c (categories db) -> Category.is_active c = true ->
       exists n, In (c, n) (CategoryService.get_categories_with_product_counts
                              order_categories db)) /\
    (forall b n,
       In (b, n) (BrandService.get_brands_with_product_counts order_brands db) ->
       In b (brands db) /\ Brand.is_active b = true /\
       n = List.length
             (filter (fun p => of_brand b p && has_status ACTIVE p) (products db)) /\
       (n + List.length
              (filter (fun p => of_brand b p && has_status OUT_OF_STOCK p)
                 (products db))
          + List.length
              (filter (fun p => of_brand b p && has_status DISCONTINUED p)
                 (products db)))%nat
       = List.length (filter (of_brand b) (products db))) /\
    (forall b, In b (brands db) -> Brand.is_active b = true ->
       exists n, In (b, n) (BrandService.get_brands_with_product_counts
                              order_brands db)).
Proof.
  intros oc ob db Hoc Hob. repeat split.
  - unfold CategoryService.get_categories_with_product_counts in H.
    apply in_map_iff in H as (c' & [= <- _] & Hc).
    apply (Permutation_in _ (Permutation_sym (Hoc _))) in Hc.
    now apply filter_In in Hc.
  - unfold CategoryService.get_categories_with_product_counts in H.
    apply in_map_iff in H as (c' & [= <- _] & Hc).
    apply (Permutation_in _ (Permutation_sym (Hoc _))) in Hc.
    now apply filter_In in Hc.
  - unfold CategoryService.get_categories_with_product_counts in H.
    apply in_map_iff in H as (c' & [= <- <-] & Hc).
    now rewrite filter_filter.
  - unfold CategoryService.get_categories_with_product_counts in H.
    apply in_map_iff in H as (c' & [= <- <-] & Hc).
    rewrite filter_filter. apply (count_by_status (in_category c')).
  - intros c Hc Hact. eexists.
    unfold CategoryService.get_categories_with_product_counts.
    apply in_map_iff. exists c. split; [reflexivity|].
    apply (Permutation_in _ (Hoc _)). now apply filter_In.
  - unfold BrandService.get_brands_with_product_counts in H.
    apply in_map_iff in H as (b' & [= <- _] & Hb).
    apply (Permutation_in _ (Permutation_sym (Hob _))) in Hb.
    now apply filter_In in Hb.
  - unfold BrandService.get_brands_with_product_counts in H.
    apply in_map_iff in H as (b' & [= <- _] & Hb).
    apply (Permutation_in _ (Permutation_sym (Hob _))) in Hb.
    now apply filter_In in Hb.
  - unfold BrandService.get_brands_with_product_counts in H.
    apply in_map_iff in H as (b' & [= <- <-] & Hb).
    now rewrite filter_filter.
  - unfold BrandService.get_brands_with_product_counts in H.
    apply in_map_iff in H as (b' & [= <- <-] & Hb).
    rewrite filter_filter. apply (count_by_status (of_brand b')).
  - intros b Hb Hact. eexists.
    unfold BrandService.get_brands_with_product_counts.
    apply in_map_iff. exists b. split; [reflexivity|].
    apply (Permutation_in _ (Hob _)). now apply filter_In.
Qed.

Lemma product_counts_count_active_only_witness :
  reorders (fun rows : list Category.t => rows) /\
  reorders (fun rows : list Brand.t => rows) /\
  In (Examples.memory_category, 1%nat)
     (CategoryService.get_categories_with_product_counts (fun rows => rows)
        Examples.seeded_db) /\
  1%nat = List.length
            (filter (fun p => in_category Examples.memory_category p
                              && has_status ACTIVE p)
               (products Examples.seeded_db)).
Proof.
  assert (Hin : In (Examples.memory_category, 1%nat)
                  (CategoryService.get_categories_with_product_counts
                     (fun rows => rows) Examples.seeded_db)).
  { right. right. left. reflexivity. }
  split; [exact reorders_id|]. split; [exact reorders_id|]. split; [exact Hin|].
  destruct (product_counts_count_active_only (fun rows => rows) (fun rows => rows)
              Examples.seeded_db reorders_id reorders_id) as (Hcat & _).
  destruct (Hcat Examples.memory_category 1%nat Hin) as (_ & _ & Hn & _).
  exact Hn.
Defined.

(** ** The seeder *)

Lemma seed_existing utcnow db :
  products db <> [] -> DataSeederService.seed_sample_data utcnow db = (Ok tt, db).
Proof.
  intros H. unfold DataSeederService.seed_sample_data, bind, first_product.
  destruct (products db) as [|p l]; [now destruct H|reflexivity].
Qed.

(** On a store without products and without colliding unique values the run
    returns, and adds exactly the rows of the four commits. *)
Lemma seed_fresh utcnow db :
  products db = [] -> DataSeederService.collides db = false ->
  let cs := DataSeederService.seeded_categories utcnow
              (next_id (map Category.id (categories db))) in
  let bs := DataSeederService.seeded_brands utcnow
              (next_id (map Brand.id (brands db))) in
  let ps := DataSeederService.seeded_products utcnow cs bs 1 in
  let ims := DataSeederService.seeded_images utcnow ps
               (next_id (map ProductImage.id (product_images db))) in
  DataSeederService.seed_sample_data utcnow db
  = (Ok tt,
     mkDatabase (categories db ++ cs) (brands db ++ bs) ps (product_images db ++ ims)).
Proof.
  intros Hp Hc cs bs ps ims.
  unfold DataSeederService.collides in Hc.
  apply orb_false_iff in Hc as [Hc Hbn]. apply orb_false_iff in Hc as [Hcn Hcs].
  unfold DataSeederService.seed_sample_data, bind, first_product.
  rewrite Hp. cbn [hd_error].
  unfold commit_categories.
  fold (DataSeederService.seeded_categories utcnow
          (next_id (map Category.id (categories db)))).
  fold cs.
  change (map Category.name cs)
    with (map (fun '(name, _, _) => name) DataSeederService.cat_data_list).
  rewrite Hcn.
  change (map Category.slug cs)
    with (map (fun '(_, slug, _) => slug) DataSeederService.cat_data_list).
  rewrite Hcs.
  unfold commit_brands. cbn [brands categories products product_images].
  fold (DataSeederService.seeded_brands utcnow (next_id (map Brand.id (brands db)))).
  fold bs.
  change (map Brand.name bs) with (map fst DataSeederService.brand_data_list).
  rewrite Hbn.
  unfold commit_products. cbn [brands categories products product_images].
  rewrite Hp. change (next_id (map Product.id [])) with 1.
  fold (DataSeederService.seeded_products utcnow cs bs 1). fold ps.
  replace (violates_unique (map Product.sku []) (map Product.sku ps)) with false
    by (vm_compute; reflexivity).
  replace (violates_unique (map Product.slug []) (map Product.slug ps)) with false
    by (vm_compute; reflexivity).
  reflexivity.
Qed.

(** With a colliding unique value the run raises; no product is stored, and
    what made it raise is still in the store afterwards. *)
Lemma seed_collision utcnow db :
  products db = [] -> DataSeederService.collides db = true ->
  exists e db',
    DataSeederService.seed_sample_data utcnow db = (Raise e, db') /\
    products db' = [] /\ DataSeederService.collides db' = true.
Proof.
  intros Hp Hc.
  unfold DataSeederService.seed_sample_data, bind, first_product.
  rewrite Hp. cbn [hd_error].
  unfold commit_categories.
  set (cs := assign_ids _ _).
  change (map Category.name cs)
    with (map (fun '(name, _, _) => name) DataSeederService.cat_data_list).
  change (map Category.slug cs)
    with (map (fun '(_, slug, _) => slug) DataSeederService.cat_data_list).
  destruct (violates_unique (map Category.name (categories db)) _) eqn:Hcn;
    [now eauto|].
  destruct (violates_unique (map Category.slug (categories db)) _) eqn:Hcs;
    [now eauto|].
  unfold commit_brands. cbn [brands categories products product_images].
  set (bs := assign_ids _ _).
  change (map Brand.name bs) with (map fst DataSeederService.brand_data_list).
  unfold DataSeederService.collides in Hc. rewrite Hcn, Hcs in Hc.
  rewrite !orb_false_l in Hc.
  rewrite Hc. do 2 eexists. split; [reflexivity|]. split; [exact Hp|].
  unfold DataSeederService.collides. cbn [brands categories].
  rewrite Hc. apply orb_true_r.
Qed.

(** C5. Running the seeder a second time leaves as many product rows as the
    first run left, whatever the store held before and whether or not a run
    raised; on a store that holds a product row a run returns and changes
    nothing. *)
Theorem seed_sample_data_idempotent :
  forall utcnow utcnow' db,
    List.length
      (products (snd (DataSeederService.seed_sample_data utcnow'
                        (snd (DataSeederService.seed_sample_data utcnow db)))))
    = List.length (products (snd (DataSeederService.seed_sample_data utcnow db))) /\
    (products db <> [] -> DataSeederService.seed_sample_data utcnow db = (Ok tt, db)).
Proof.
  intros u u' db. split; [|apply seed_existing].
  destruct (products db) as [|p0 l0] eqn:Hp.
  - destruct (DataSeederService.collides db) eqn:Hc.
    + destruct (seed_collision u db Hp Hc) as (e & db1 & -> & Hp1 & Hc1).
      destruct (seed_collision u' db1 Hp1 Hc1) as (e' & db2 & E2 & Hp2 & _).
      simpl. rewrite E2. simpl. now rewrite Hp1, Hp2.
    + rewrite (seed_fresh u db Hp Hc). cbn [snd].
      rewrite seed_existing; [reflexivity|]. discriminate.
  - rewrite (seed_existing u db) by (rewrite Hp; discriminate). cbn [snd].
    rewrite (seed_existing u' db) by (rewrite Hp; discriminate). reflexivity.
Qed.

Lemma seed_sample_data_idempotent_witness :
  products Examples.seeded_db <> [] /\
  DataSeederService.seed_sample_data Examples.clock Examples.seeded_db
  = (Ok tt, Examples.seeded_db).
Proof.
  assert (H : products Examples.seeded_db <> []) by discriminate.
  split; [exact H|].
  exact (proj2 (seed_sample_data_idempotent Examples.clock Examples.clock
                  Examples.seeded_db) H).
Defined.

(** C6, as stated, fails on the empty store: the third product of the run
    references the fourth brand (Corsair), not the third (Intel). *)
Lemma third_product_is_not_of_third_brand :
  products empty_db = [] /\
  exists p b,
    nth_error (products Examples.seeded_db) 2 = Some p /\
    nth_error (brands Examples.seeded_db) 2 = Some b /\
    Product.brand_id p = Some 4 /\ Brand.id b = 3 /\
    Product.brand_id p <> Some (Brand.id b).
Proof.
  split; [reflexivity|].
  do 2 eexists. repeat split; try reflexivity. discriminate.
Qed.

(** A store that holds no product but a category named like a seeded one:
    the run raises on the unique name and stores nothing. *)
Lemma seeder_raises_on_stored_category :
  products Examples.memory_only_db = [] /\
  DataSeederService.seed_sample_data Examples.clock Examples.memory_only_db
  = (Raise (IntegrityError "categories" "name"), Examples.memory_only_db).
Proof. split; reflexivity. Qed.

Lemma empty_db_does_not_collide : DataSeederService.collides empty_db = false.
Proof. reflexivity. Qed.

(** C6, amended. On a store with no product row in which no category or
    brand already carries a seeded name or slug (in particular on the empty
    store), the seeder returns and adds exactly 8 categories, 8 brands,
    8 products and 8 images; the i-th product references the i-th new
    category and the new brand at position [brand_positions[i]]
    (0, 1, 3, 6, 4, 3, 5, 3); the i-th image belongs to the i-th product and
    has [is_primary] set. *)
Theorem seed_sample_data_inserts :
  forall utcnow db,
    products db = [] -> DataSeederService.collides db = false ->
    exists cs bs ps ims,
      DataSeederService.seed_sample_data utcnow db
      = (Ok tt,
         mkDatabase (categories db ++ cs) (brands db ++ bs) ps
           (product_images db ++ ims)) /\
      List.length cs = 8%nat /\ List.length bs = 8%nat /\
      List.length ps = 8%nat /\ List.length ims = 8%nat /\
      (forall i p, nth_error ps i = Some p ->
         exists c b,
           nth_error cs i = Some c /\
           nth_error bs (nth i DataSeederService.brand_positions 0%nat) = Some b /\
           Product.category_id p = Some (Category.id c) /\
           Product.brand_id p = Some (Brand.id b)) /\
      (forall i im, nth_error ims i = Some im ->
         ProductImage.is_primary im = true /\
         exists p, nth_error ps i = Some p /\
                   ProductImage.product_id im = Product.id p).
Proof.
  intros utcnow db Hp Hc.
  pose proof (seed_fresh utcnow db Hp Hc) as Hrun. cbv zeta in Hrun.
  do 4 eexists. split; [exact Hrun|].
  repeat split.
  - intros i p Hi.
    do 8 (destruct i as [|i];
          [injection Hi as <-; do 2 eexists; repeat split; reflexivity|]).
    destruct i; discriminate Hi.
  - do 8 (destruct i as [|i]; [injection H as <-; reflexivity|]).
    destruct i; discriminate H.
  - do 8 (destruct i as [|i];
          [injection H as <-; eexists; split; reflexivity|]).
    destruct i; discriminate H.
Qed.

Lemma seed_sample_data_inserts_witness :
  products empty_db = [] /\ DataSeederService.collides empty_db = false /\
  exists cs bs ps ims,
    DataSeederService.seed_sample_data Examples.clock empty_db
    = (Ok tt, mkDatabase cs bs ps ims) /\
    List.length cs = 8%nat /\ List.length bs = 8%nat /\
    List.length ps = 8%nat /\ List.length ims = 8%nat.
Proof.
  split; [reflexivity|]. split; [reflexivity|].
  destruct (seed_sample_data_inserts Examples.clock empty_db eq_refl eq_refl)
    as (cs & bs & ps & ims & Hrun & Hcs & Hbs & Hps & Hims & _).
  exists cs, bs, ps, ims. auto.
Defined.

(** ** The example scenario *)

Lemma page_covers_all {A} (limit : nat) (l : list A) :
  (List.length l <= limit)%nat -> firstn limit (skipn 0 l) = l.
Proof. intros H. simpl. now apply firstn_all2. Qed.

Lemma summary_name db p :
  ProductSummary.name (ProductService.summary db p) = Product.name p.
Proof. reflexivity. Qed.

(** C4, as stated, fails: on the seeded store the page for "in stock, at most
    200.00" holds seven products, and the processor (199.99, 25 in stock) is
    one of them. *)
Lemma scenario_returns_the_processor :
  exists r,
    ProductService.get_products order_ties_in_storage_order Examples.seeded_db
      (Some Examples.in_stock_up_to_200) 20 0 = Ok r /\
    List.length r = 7%nat /\
    In "Ryzen 5 5600X Processor"%string (map ProductSummary.name r) /\
    ~ Permutation (map ProductSummary.name r)
        [ "16GB DDR4-3200 Gaming Memory Kit"; "1TB NVMe SSD Gaming Drive";
          "B550 Gaming Motherboard"; "650W 80+ Gold Gaming PSU";
          "Mid-Tower Gaming Case"; "Mechanical Gaming Keyboard" ]%string.
Proof.
  eexists. split; [reflexivity|]. split; [reflexivity|]. split.
  - simpl. do 6 right. left. reflexivity.
  - intros H. apply Permutation_length in H. discriminate H.
Qed.

(** C4, amended. After seeding the empty store, whatever the clock read
    and however the store orders equal timestamps, [get_products] with
    [in_stock_only] and [max_price = 200.00] (default limit 20, offset 0)
    returns exactly seven products: the processor, the DDR4 memory kit, the
    SSD, the motherboard, the PSU, the case and the keyboard; the graphics
    card (299.99) is the only seeded product left out. *)
Theorem scenario_in_stock_up_to_200 :
  forall utcnow order_by,
    order_by_contract order_by ->
    exists r,
      ProductService.get_products order_by
        (snd (DataSeederService.seed_sample_data utcnow empty_db))
        (Some Examples.in_stock_up_to_200) 20 0 = Ok r /\
      Permutation (map ProductSummary.name r)
        [ "Ryzen 5 5600X Processor"; "16GB DDR4-3200 Gaming Memory Kit";
          "1TB NVMe SSD Gaming Drive"; "B550 Gaming Motherboard";
          "650W 80+ Gold Gaming PSU"; "Mid-Tower Gaming Case";
          "Mechanical Gaming Keyboard" ]%string /\
      ~ In "RTX 4060 Gaming Graphics Card"%string (map ProductSummary.name r).
Proof.
  intros utcnow order_by Hord.
  set (db := snd (DataSeederService.seed_sample_data utcnow empty_db)).
  set (rows := ProductService.matching db (Some Examples.in_stock_up_to_200)).
  assert (Hnames : map Product.name rows
                   = [ "Ryzen 5 5600X Processor"; "16GB DDR4-3200 Gaming Memory Kit";
                       "1TB NVMe SSD Gaming Drive"; "B550 Gaming Motherboard";
                       "650W 80+ Gold Gaming PSU"; "Mid-Tower Gaming Case";
                       "Mechanical Gaming Keyboard" ]%string)
    by (vm_compute; reflexivity).
  destruct (Hord rows) as [Hperm _].
  assert (Hlen : List.length (order_by rows) = 7%nat).
  { rewrite <- (Permutation_length Hperm), <- (length_map Product.name), Hnames.
    reflexivity. }
  assert (Hpage : Permutation (map ProductSummary.name
                                 (map (ProductService.summary db) (order_by rows)))
                    (map Product.name rows)).
  { rewrite map_map. symmetry.
    apply (Permutation_map (fun p => ProductSummary.name (ProductService.summary db p))).
    exact Hperm. }
  exists (map (ProductService.summary db) (order_by rows)).
  split; [|split].
  - rewrite get_products_ok by (apply in_store_range; lia). fold rows.
    change (Z.to_nat 20) with 20%nat. change (Z.to_nat 0) with 0%nat.
    rewrite page_covers_all; [reflexivity|]. rewrite Hlen. lia.
  - rewrite <- Hnames. exact Hpage.
  - intros Hin. apply (Permutation_in _ Hpage) in Hin. rewrite Hnames in Hin.
    simpl in Hin. repeat (destruct Hin as [Hin|Hin]; [discriminate Hin|]). exact Hin.
Qed.

Lemma scenario_in_stock_up_to_200_witness :
  order_by_contract order_ties_in_reverse_order /\
  exists r,
    ProductService.get_products order_ties_in_reverse_order
      (snd (DataSeederService.seed_sample_data Examples.clock empty_db))
      (Some Examples.in_stock_up_to_200) 20 0 = Ok r /\
    ~ In "RTX 4060 Gaming Graphics Card"%string (map ProductSummary.name r).
Proof.
  split; [exact order_ties_in_reverse_order_ok|].
  destruct (scenario_in_stock_up_to_200 Examples.clock order_ties_in_reverse_order
              order_ties_in_reverse_order_ok) as (r & Hr & _ & Hgpu).
  exists r. split; assumption.
Defined.

(** ** Pagination *)

Lemma NoDup_app_disjoint {A} (l1 l2 : list A) (a : A) :
  NoDup (l1 ++ l2) -> In a l1 -> In a l2 -> False.
Proof.
  induction l1 as [|x l1 IH]; simpl; intros Hnd H1 H2; [exact H1|].
  inversion Hnd as [|? ? Hx Hrest]; subst.
  destruct H1 as [->|H1]; [|now apply IH].
  apply Hx, in_or_app. now right.
Qed.

Lemma NoDup_map_injective {A B} (f : A -> B) (l : list A) (a b : A) :
  NoDup (map f l) -> In a l -> In b l -> f a = f b -> a = b.
Proof.
  induction l as [|x l IH]; simpl; intros Hnd Ha Hb E; [destruct Ha|].
  inversion Hnd as [|? ? Hx Hrest]; subst.
  destruct Ha as [->|Ha], Hb as [->|Hb]; auto.
  - destruct Hx. rewrite E. now apply in_map.
  - destruct Hx. rewrite <- E. now apply in_map.
Qed.

Lemma NoDup_map_filter {A B} (f : A -> B) (keep : A -> bool) (l : list A) :
  NoDup (map f l) -> NoDup (map f (filter keep l)).
Proof.
  induction l as [|x l IH]; simpl; intros Hnd; [constructor|].
  inversion Hnd as [|? ? Hx Hrest]; subst.
  destruct (keep x); simpl; [|now apply IH].
  constructor; [|now apply IH].
  intros Hin. apply Hx. apply in_map_iff in Hin as (y & E & Hy).
  apply in_map_iff. exists y. split; [exact E|]. now apply filter_In in Hy.
Qed.

(** Two windows of one list that do not overlap share no key. *)
Lemma windows_disjoint {A B} (f : A -> B) (l : list A) (n n' o1 o2 : nat) (x y : A) :
  NoDup (map f l) -> (o1 + n <= o2)%nat ->
  In x (firstn n (skipn o1 l)) -> In y (firstn n' (skipn o2 l)) -> f x <> f y.
Proof.
  intros Hnd Hle Hx Hy E.
  rewrite firstn_skipn_comm in Hx. apply In_skipn in Hx.
  replace (o1 + n)%nat with (Nat.min (o1 + n) o2) in Hx by lia.
  rewrite <- firstn_firstn in Hx. apply In_firstn in Hx.
  apply In_firstn in Hy.
  rewrite <- (firstn_skipn o2 l), map_app in Hnd.
  apply (NoDup_app_disjoint _ _ (f x) Hnd); [now apply in_map|].
  rewrite E. now apply in_map.
Qed.

(** A list has one arrangement that is sorted by a relation which is
    antisymmetric on its elements. *)
Lemma sorted_arrangement_unique {A} (R : A -> A -> Prop) :
  forall l1 l2 : list A,
    (forall a b, In a l1 -> In b l1 -> R a b -> R b a -> a = b) ->
    StronglySorted R l1 -> StronglySorted R l2 -> Permutation l1 l2 -> l1 = l2.
Proof.
  induction l1 as [|a t1 IH]; intros l2 Hanti Hs1 Hs2 Hperm.
  - apply Permutation_nil in Hperm. now subst.
  - destruct l2 as [|b t2];
      [apply Permutation_sym, Permutation_nil in Hperm; discriminate|].
    inversion Hs1 as [|? ? Hs1' Ha]; subst.
    inversion Hs2 as [|? ? Hs2' Hb]; subst.
    rewrite Forall_forall in Ha, Hb.
    assert (E : a = b).
    { assert (Ha2 : In a (b :: t2))
        by (apply (Permutation_in _ Hperm); now left).
      assert (Hb1 : In b (a :: t1))
        by (apply (Permutation_in _ (Permutation_sym Hperm)); now left).
      destruct Ha2 as [->|Ha2]; [reflexivity|].
      destruct Hb1 as [->|Hb1]; [reflexivity|].
      apply Hanti; [now left|now right|now apply Ha|now apply Hb]. }
    subst b. f_equal.
    apply IH; auto.
    + intros x y Hx Hy. apply Hanti; now right.
    + now apply Permutation_cons_inv in Hperm.
Qed.

(** With pairwise distinct timestamps every store returns the same order. *)
Lemma order_by_determined order1 order2 rows :
  order_by_contract order1 -> order_by_contract order2 ->
  NoDup (map Product.created_at rows) ->
  order1 rows = order2 rows.
Proof.
  intros H1 H2 Hnd.
  destruct (H1 rows) as [Hp1 Hs1]. destruct (H2 rows) as [Hp2 Hs2].
  apply (sorted_arrangement_unique created_at_desc); auto.
  - intros a b Ha Hb Hab Hba. unfold created_at_desc in *.
    apply (NoDup_map_injective Product.created_at (order1 rows)); auto; [|lia].
    eapply Permutation_NoDup; [|exact Hnd]. now apply Permutation_map.
  - etransitivity; [symmetry; exact Hp1|exact Hp2].
Qed.

Lemma or_0_id id : ProductService.or_0 id = id.
Proof.
  unfold ProductService.or_0. destruct (Z.eqb_spec id 0); congruence.
Qed.

(** Pages cut from one and the same ordering do not overlap, ties or not. *)
Lemma pages_of_one_ordering_disjoint order_by db filters limit offset1 offset2 r1 r2 s1 s2 :
  order_by_contract order_by ->
  NoDup (map Product.id (products db)) ->
  offset1 + limit <= offset2 \/ offset2 + limit <= offset1 ->
  ProductService.get_products order_by db filters limit offset1 = Ok r1 ->
  ProductService.get_products order_by db filters limit offset2 = Ok r2 ->
  In s1 r1 -> In s2 r2 -> ProductSummary.id s1 <> ProductSummary.id s2.
Proof.
  intros Hord Hpk Hwin Hget1 Hget2 Hin1 Hin2.
  apply get_products_inv in Hget1 as (Hl & Ho1 & ->).
  apply get_products_inv in Hget2 as (_ & Ho2 & ->).
  apply in_map_iff in Hin1 as (p1 & <- & Hp1).
  apply in_map_iff in Hin2 as (p2 & <- & Hp2).
  simpl. rewrite !or_0_id.
  set (rows := order_by (ProductService.matching db filters)) in *.
  assert (Hnd : NoDup (map Product.id rows)).
  { eapply Permutation_NoDup.
    - apply Permutation_map, (proj1 (Hord _)).
    - unfold ProductService.matching. now apply NoDup_map_filter. }
  destruct Hwin as [Hwin|Hwin].
  - apply (windows_disjoint Product.id rows (Z.to_nat limit) (Z.to_nat limit)
             (Z.to_nat offset1) (Z.to_nat offset2) p1 p2 Hnd); [lia|exact Hp1|exact Hp2].
  - intros E. symmetry in E. revert E.
    apply (windows_disjoint Product.id rows (Z.to_nat limit) (Z.to_nat limit)
             (Z.to_nat offset2) (Z.to_nat offset1) p2 p1 Hnd); [lia|exact Hp2|exact Hp1].
Qed.

Lemma swap_leading_tie_perm rows : Permutation rows (swap_leading_tie rows).
Proof.
  destruct rows as [|p [|q rest]]; simpl; try reflexivity.
  destruct (Product.created_at p =? Product.created_at q); [apply perm_swap|reflexivity].
Qed.

Lemma swap_leading_tie_sorted rows :
  StronglySorted created_at_desc rows ->
  StronglySorted created_at_desc (swap_leading_tie rows).
Proof.
  intros Hs. destruct rows as [|p [|q rest]]; simpl; try exact Hs.
  destruct (Z.eqb_spec (Product.created_at p) (Product.created_at q)) as [E|_];
    [|exact Hs].
  apply sorted_cons_inv in Hs as [Hq Hp].
  apply sorted_cons_inv in Hq as [Hrest Hq].
  apply Forall_cons_iff in Hp as [_ Hp].
  constructor; [now constructor|].
  constructor; [unfold created_at_desc; lia|exact Hq].
Qed.

Lemma order_keeping_best_two_ok : order_by_contract order_keeping_best_two.
Proof.
  intros rows. unfold order_keeping_best_two.
  destruct (order_ties_in_storage_order_ok rows) as [Hperm Hsorted].
  destruct (4 <? List.length rows)%nat; [|now split].
  split.
  - etransitivity; [exact Hperm|apply swap_leading_tie_perm].
  - now apply swap_leading_tie_sorted.
Qed.

(** C7 on a store of five products created at the same instant.  The
    [ORDER BY] names no key after [created_at], so the store settles the tie
    for each statement by the sort it runs: keeping the best row for LIMIT 1
    OFFSET 0, keeping the best two for LIMIT 1 OFFSET 1.  Both orders honour
    the [ORDER BY]; the windows [0,1) and [1,2) do not overlap; the two
    pages hold the same product, product 1. *)
Theorem pages_overlap_on_five_tied_products :
  order_by_contract order_ties_in_storage_order /\
  order_by_contract order_keeping_best_two /\
  NoDup (map Product.id (products Examples.five_tied_db)) /\
  0 + 1 <= 1 /\
  exists s,
    ProductService.get_products order_ties_in_storage_order Examples.five_tied_db
      None 1 0 = Ok [s] /\
    ProductService.get_products order_keeping_best_two Examples.five_tied_db
      None 1 1 = Ok [s] /\
    ProductSummary.id s = 1.
Proof.
  split; [exact order_ties_in_storage_order_ok|].
  split; [exact order_keeping_best_two_ok|].
  split; [|split; [lia|]].
  - simpl. repeat constructor; simpl; intuition discriminate.
  - eexists. repeat split; reflexivity.
Qed.

(** X24. Where no tie can arise the pages are disjoint: for a store whose
    product ids are distinct (primary key) and a filter whose matching
    products have pairwise distinct creation timestamps, for all limit L and
    offsets O1, O2 with O1 + L <= O2 or O2 + L <= O1, the ids of the two
    pages returned by [get_products] are disjoint, however the store settles
    ties for either query. *)
Theorem pages_disjoint_on_distinct_timestamps :
  forall order1 order2 db filters limit offset1 offset2 r1 r2 s1 s2,
    order_by_contract order1 -> order_by_contract order2 ->
    NoDup (map Product.id (products db)) ->
    NoDup (map Product.created_at (ProductService.matching db filters)) ->
    offset1 + limit <= offset2 \/ offset2 + limit <= offset1 ->
    ProductService.get_products order1 db filters limit offset1 = Ok r1 ->
    ProductService.get_products order2 db filters limit offset2 = Ok r2 ->
    In s1 r1 -> In s2 r2 -> ProductSummary.id s1 <> ProductSummary.id s2.
Proof.
  intros order1 order2 db filters limit offset1 offset2 r1 r2 s1 s2
         H1 H2 Hpk Hts Hwin Hget1 Hget2 Hin1 Hin2.
  assert (Hget2' : ProductService.get_products order1 db filters limit offset2 = Ok r2).
  { unfold ProductService.get_products in *.
    now rewrite (order_by_determined order1 order2 _ H1 H2 Hts). }
  exact (pages_of_one_ordering_disjoint order1 db filters limit offset1 offset2
           r1 r2 s1 s2 H1 Hpk Hwin Hget1 Hget2' Hin1 Hin2).
Qed.

Lemma seeded_ids_distinct : NoDup (map Product.id (products Examples.seeded_db)).
Proof. simpl. repeat constructor; simpl; intuition discriminate. Qed.

Lemma seeded_timestamps_distinct :
  NoDup (map Product.created_at (ProductService.matching Examples.seeded_db None)).
Proof. simpl. repeat constructor; simpl; intuition discriminate. Qed.

Lemma pages_disjoint_on_distinct_timestamps_witness :
  order_by_contract order_ties_in_storage_order /\
  order_by_contract order_ties_in_reverse_order /\
  NoDup (map Product.id (products Examples.seeded_db)) /\
  NoDup (map Product.created_at (ProductService.matching Examples.seeded_db None)) /\
  (0 + 3 <= 3 \/ 3 + 3 <= 0) /\
  ProductService.get_products order_ties_in_storage_order Examples.seeded_db
    None 3 0 = Ok Examples.first_page /\
  ProductService.get_products order_ties_in_reverse_order Examples.seeded_db
    None 3 3 = Ok Examples.second_page /\
  forall s1 s2, In s1 Examples.first_page -> In s2 Examples.second_page ->
                ProductSummary.id s1 <> ProductSummary.id s2.
Proof.
  assert (Hwin : 0 + 3 <= 3 \/ 3 + 3 <= 0) by (left; lia).
  split; [exact order_ties_in_storage_order_ok|].
  split; [exact order_ties_in_reverse_order_ok|].
  split; [exact seeded_ids_distinct|].
  split; [exact seeded_timestamps_distinct|].
  split; [exact Hwin|].
  split; [reflexivity|]. split; [reflexivity|].
  intros s1 s2 Hin1 Hin2.
  exact (pages_disjoint_on_distinct_timestamps
           order_ties_in_storage_order order_ties_in_reverse_order
           Examples.seeded_db None 3 0 3 Examples.first_page Examples.second_page
           s1 s2 order_ties_in_storage_order_ok order_ties_in_reverse_order_ok
           seeded_ids_distinct seeded_timestamps_distinct Hwin eq_refl eq_refl
           Hin1 Hin2).
Defined.

(** ** Search *)

Lemma like_match_percent p s :
  like_match (String "%" p) s
  = like_match p s
    || match s with
       | EmptyString => false
       | String _ s' => like_match (String "%" p) s'
       end.
Proof. destruct s; reflexivity. Qed.

Lemma like_match_literal_char c p s :
  special c = false ->
  like_match (String c p) s
  = match s with
    | EmptyString => false
    | String d s' => Ascii.eqb c d && like_match p s'
    end.
Proof.
  unfold special. intros H.
  apply orb_false_iff in H as [H H3]. apply orb_false_iff in H as [H1 H2].
  cbn [like_match]. rewrite H1, H2, H3. reflexivity.
Qed.

Lemma like_percent_split p : forall s,
  like_match (String "%" p) s = true ->
  exists pre suf, s = (pre ++ suf)%string /\ like_match p suf = true.
Proof.
  induction s as [|c s IH]; rewrite like_match_percent; intros H.
  - rewrite orb_false_r in H. exists EmptyString, EmptyString. auto.
  - apply orb_true_iff in H as [H|H].
    + exists EmptyString, (String c s). auto.
    + destruct (IH H) as (pre & suf & -> & Hsuf).
      exists (String c pre), suf. auto.
Qed.

Lemma like_literal_prefix rest : forall q s,
  literal q = true -> like_match (q ++ rest) s = true ->
  exists s', s = (q ++ s')%string /\ like_match rest s' = true.
Proof.
  induction q as [|c q IH]; intros s Hlit H.
  - exists s. auto.
  - cbn [literal] in Hlit. apply andb_true_iff in Hlit as [Hc Hq].
    apply negb_true_iff in Hc.
    cbn [String.append] in H. rewrite (like_match_literal_char _ _ _ Hc) in H.
    destruct s as [|d s]; [discriminate|].
    apply andb_true_iff in H as [Hcd H]. apply Ascii.eqb_eq in Hcd. subst d.
    destruct (IH s Hq H) as (s' & -> & Hrest). exists s'. auto.
Qed.

Lemma prefix_of_append q : forall post, prefix_of q (q ++ post) = true.
Proof.
  induction q as [|c q IH]; intros post; simpl; [reflexivity|].
  now rewrite Ascii.eqb_refl, IH.
Qed.

Lemma substring_of_unfold q s :
  substring_of q s
  = prefix_of q s
    || match s with
       | EmptyString => false
       | String _ s' => substring_of q s'
       end.
Proof. destruct s; reflexivity. Qed.

Lemma substring_of_middle q post : forall pre,
  substring_of q (pre ++ q ++ post) = true.
Proof.
  induction pre as [|c pre IH]; rewrite substring_of_unfold.
  - cbn [String.append]. now rewrite prefix_of_append.
  - cbn [String.append]. rewrite IH. apply orb_true_r.
Qed.

Lemma lower_append a b : lower (a ++ b) = (lower a ++ lower b)%string.
Proof. induction a as [|c a IH]; simpl; [reflexivity|now rewrite IH]. Qed.

Lemma lower_ascii_special c : special (lower_ascii c) = special c.
Proof.
  destruct c as [[] [] [] [] [] [] [] []]; vm_compute; reflexivity.
Qed.

Lemma literal_lower q : literal (lower q) = literal q.
Proof.
  induction q as [|c q IH]; simpl; [reflexivity|].
  now rewrite lower_ascii_special, IH.
Qed.

(** A pattern [%q%] with a literal [q] matches only the strings that hold
    [q], whatever the case of the letters. *)
Lemma ilike_literal_contains q s :
  literal q = true -> ilike s ("%" ++ q ++ "%") = true -> contains_ci q s = true.
Proof.
  unfold ilike, contains_ci. intros Hlit H.
  rewrite !lower_append in H.
  change (lower "%") with "%"%string in H. cbn [String.append] in H.
  apply like_percent_split in H as (pre & suf & E & H).
  apply like_literal_prefix in H as (post & -> & _);
    [|now rewrite literal_lower].
  rewrite E. apply substring_of_middle.
Qed.

(** The patterns of [get_products] never end in a lone backslash. *)
Lemma dangling_escape_percent q :
  dangling_escape (q ++ "%") = false /\
  forall c, dangling_escape (String c q ++ "%") = false.
Proof.
  induction q as [|d q [IH1 IH2]].
  - split; [reflexivity|]. intros c. simpl. now destruct (Ascii.eqb c "\").
  - split; [apply IH2|]. intros c.
    cbn [String.append dangling_escape].
    destruct (Ascii.eqb c "\"); [exact IH1|]. apply (IH2 d).
Qed.

Lemma search_pattern_no_dangling_escape q :
  dangling_escape (lower ("%" ++ q ++ "%")) = false.
Proof.
  rewrite !lower_append. change (lower "%") with "%"%string.
  cbn [String.append dangling_escape Ascii.eqb]. simpl Ascii.eqb.
  apply dangling_escape_percent.
Qed.

Lemma satisfies_search f q p :
  ProductFilter.search_query f = Some q -> q <> EmptyString ->
  ProductService.satisfies (ProductService.where_clauses f) p = true ->
  ilike (Product.name p) ("%" ++ q ++ "%")
  || ilike (Product.description p) ("%" ++ q ++ "%") = true.
Proof.
  unfold ProductService.satisfies, ProductService.where_clauses.
  intros Eq Hq. rewrite Eq, !forallb_app, !andb_true_iff.
  intros (_ & _ & _ & _ & _ & _ & H).
  destruct q as [|c q]; [now destruct Hq|].
  simpl in H. now rewrite andb_true_r in H.
Qed.

(** X21. On ASCII text (the query, and the names and descriptions of the
    stored products), a search string without [%], [_] and backslash is
    looked up as a plain substring: every product returned holds it, in any
    case of the letters, in its name or in its description. *)
Lemma search_literal_is_substring order_by db f q limit offset r s :
  order_by_contract order_by ->
  ProductFilter.search_query f = Some q -> q <> EmptyString -> literal q = true ->
  is_ascii q = true ->
  (forall p, In p (products db) ->
     is_ascii (Product.name p) = true /\ is_ascii (Product.description p) = true) ->
  ProductService.get_products order_by db (Some f) limit offset = Ok r ->
  In s r ->
  exists p,
    In p (products db) /\ s = ProductService.summary db p /\
    (contains_ci q (Product.name p) = true
     \/ contains_ci q (Product.description p) = true).
Proof.
  intros Hord Eq Hq Hlit _ _ Hget Hin.
  destruct (get_products_In _ _ _ _ _ _ _ Hord Hget Hin) as (p & Hp & ->).
  exists p. split; [now apply matching_In in Hp|]. split; [reflexivity|].
  unfold ProductService.matching in Hp. apply filter_In in Hp as [_ Hsat].
  apply (satisfies_search f q p Eq Hq) in Hsat.
  apply orb_true_iff in Hsat as [H|H]; [left|right];
    now apply ilike_literal_contains.
Qed.

(** C8 at the search string ["_"], on the seeded store: [search_products]
    (and [get_products] with that [search_query]) returns all eight
    products, and no seeded product holds an underscore in its name or in
    its description. *)
Theorem search_underscore_returns_every_product :
  (exists r,
     ProductService.search_products order_ties_in_storage_order Examples.seeded_db
       "_" 20 = Ok r /\
     ProductService.get_products order_ties_in_storage_order Examples.seeded_db
       (Some (ProductFilter.mk None None None None (Some ACTIVE) false (Some "_"%string)))
       20 0 = Ok r /\
     map ProductSummary.id r = [8; 7; 6; 5; 4; 3; 2; 1]) /\
  forallb (fun p => negb (contains_ci "_" (Product.name p))
                    && negb (contains_ci "_" (Product.description p)))
    (products Examples.seeded_db) = true.
Proof.
  split; [|vm_compute; reflexivity].
  eexists. split; [vm_compute; reflexivity|]. split; reflexivity.
Qed.

(* ================================================================== *)
(** * Further properties of the services *)

(** ** Pages: size, order, composition *)

Lemma page_length {A} (n m : nat) (l : list A) :
  List.length (firstn n (skipn m l)) = Nat.min n (List.length l - m).
Proof. now rewrite length_firstn, length_skipn. Qed.

Lemma firstn_add_split {A} (a b : nat) : forall l : list A,
  firstn (a + b) l = firstn a l ++ firstn b (skipn a l).
Proof.
  induction a as [|a IH]; intros l; [reflexivity|].
  destruct l as [|x l]; simpl.
  - now rewrite firstn_nil.
  - now rewrite IH.
Qed.

Lemma skipn_add {A} (a b : nat) : forall l : list A,
  skipn (a + b) l = skipn b (skipn a l).
Proof.
  induction a as [|a IH]; intros l; [reflexivity|].
  destruct l as [|x l]; simpl; [now rewrite skipn_nil|apply IH].
Qed.



(** X2. Under one ordering of the store, the page of [l1] rows at [offset]
    followed by the page of [l2] rows at [offset + l1] is the page of
    [l1 + l2] rows at [offset], as long as [l1 + l2] is below 2^63. *)
Theorem get_products_pages_concat :
  forall order_by db filters l1 l2 offset r1 r2,
    0 <= l1 -> 0 <= l2 -> l1 + l2 < bigint_bound ->
    ProductService.get_products order_by db filters l1 offset = Ok r1 ->
    ProductService.get_products order_by db filters l2 (offset + l1) = Ok r2 ->
    ProductService.get_products order_by db filters (l1 + l2) offset = Ok (r1 ++ r2).
Proof.
  intros order_by db filters l1 l2 offset r1 r2 H1 H2 Hsum Hg1 Hg2.
  apply get_products_inv in Hg1 as (_ & Ho & ->).
  apply get_products_inv in Hg2 as (_ & _ & ->).
  rewrite get_products_ok by lia.
  rewrite <- map_app. do 2 f_equal.
  rewrite !Z2Nat.inj_add by lia.
  now rewrite firstn_add_split, skipn_add.
Qed.

Lemma get_products_pages_concat_witness :
  0 <= 3 /\ 0 <= 3 /\ 3 + 3 < bigint_bound /\
  ProductService.get_products order_ties_in_storage_order Examples.seeded_db
    None 3 0 = Ok Examples.first_page /\
  ProductService.get_products order_ties_in_storage_order Examples.seeded_db
    None (3 + 3) 0
  = Ok (Examples.first_page
        ++ Examples.page_of
             (ProductService.get_products order_ties_in_storage_order
                Examples.seeded_db None 3 (0 + 3))).
Proof.
  assert (H3 : 0 <= 3) by lia.
  assert (H6 : 3 + 3 < bigint_bound) by (unfold bigint_bound; lia).
  split; [exact H3|]. split; [exact H3|]. split; [exact H6|].
  split; [reflexivity|].
  exact (get_products_pages_concat order_ties_in_storage_order Examples.seeded_db
           None 3 3 0 Examples.first_page _ H3 H3 H6 eq_refl eq_refl).
Defined.

(** ** Completeness of the filter and of the search *)

Lemma column_eq_refl v : ProductService.column_eq (Some v) v = true.
Proof. simpl. apply Z.eqb_refl. Qed.

Lemma where_clauses_hold f p :
  (forall c, ProductFilter.category_id f = Some c -> Product.category_id p = Some c) ->
  (forall b, ProductFilter.brand_id f = Some b -> Product.brand_id p = Some b) ->
  (forall m, ProductFilter.min_price f = Some m -> m <= Product.price p) ->
  (forall m, ProductFilter.max_price f = Some m -> Product.price p <= m) ->
  (forall s, ProductFilter.status f = Some s -> Product.status p = s) ->
  (ProductFilter.in_stock_only f = true -> 0 < Product.stock_quantity p) ->
  (forall q, ProductFilter.search_query f = Some q -> q <> EmptyString ->
     ilike (Product.name p) ("%" ++ q ++ "%")
     || ilike (Product.description p) ("%" ++ q ++ "%") = true) ->
  ProductService.satisfies (ProductService.where_clauses f) p = true.
Proof.
  intros Hc Hb Hmin Hmax Hs Hstock Hq.
  unfold ProductService.satisfies, ProductService.where_clauses.
  rewrite !forallb_app, !andb_true_iff. repeat split.
  - destruct (ProductFilter.category_id f) as [c|]; [|reflexivity].
    simpl. rewrite (Hc c eq_refl), column_eq_refl. reflexivity.
  - destruct (ProductFilter.brand_id f) as [b|]; [|reflexivity].
    simpl. rewrite (Hb b eq_refl), column_eq_refl. reflexivity.
  - destruct (ProductFilter.min_price f) as [m|]; [|reflexivity].
    simpl. rewrite andb_true_r. apply Z.geb_le. auto.
  - destruct (ProductFilter.max_price f) as [m|]; [|reflexivity].
    simpl. rewrite andb_true_r. apply Z.leb_le. auto.
  - destruct (ProductFilter.status f) as [s|]; [|reflexivity].
    simpl. rewrite andb_true_r. apply ProductStatus_eqb_eq. auto.
  - destruct (ProductFilter.in_stock_only f); [|reflexivity].
    simpl. rewrite andb_true_r. apply Z.gtb_lt. auto.
  - destruct (ProductFilter.search_query f) as [[|c q]|]; try reflexivity.
    simpl. rewrite andb_true_r. apply (Hq (String c q) eq_refl). discriminate.
Qed.

Lemma get_products_whole order_by db filters limit p :
  order_by_contract order_by ->
  Z.of_nat (List.length (products db)) <= limit < bigint_bound ->
  In p (ProductService.matching db filters) ->
  exists r,
    ProductService.get_products order_by db filters limit 0 = Ok r /\
    In (ProductService.summary db p) r.
Proof.
  intros Hord Hlimit Hp.
  rewrite get_products_ok by (unfold bigint_bound in *; lia).
  eexists. split; [reflexivity|].
  apply in_map. change (Z.to_nat 0) with 0%nat. rewrite page_covers_all.
  - eapply Permutation_in; [apply Hord|exact Hp].
  - rewrite <- (Permutation_length (proj1 (Hord _))).
    unfold ProductService.matching.
    pose proof (filter_length_le
                  (ProductService.satisfies
                     match filters with
                     | Some f => ProductService.where_clauses f
                     | None => []
                     end) (products db)).
    lia.
Qed.

(** X4. With offset 0 and a limit below 2^63 of at least the number of
    stored products, [get_products] returns the summary of every stored
    product that meets each predicate present in the filter; for the text
    search this is stated for ASCII text, where the pattern of the query
    must match the name or the description. *)
Theorem get_products_complete :
  forall order_by db f limit p,
    order_by_contract order_by ->
    Z.of_nat (List.length (products db)) <= limit < bigint_bound ->
    In p (products db) ->
    (forall c, ProductFilter.category_id f = Some c -> Product.category_id p = Some c) ->
    (forall b, ProductFilter.brand_id f = Some b -> Product.brand_id p = Some b) ->
    (forall m, ProductFilter.min_price f = Some m -> m <= Product.price p) ->
    (forall m, ProductFilter.max_price f = Some m -> Product.price p <= m) ->
    (forall s, ProductFilter.status f = Some s -> Product.status p = s) ->
    (ProductFilter.in_stock_only f = true -> 0 < Product.stock_quantity p) ->
    (forall q, ProductFilter.search_query f = Some q -> q <> EmptyString ->
       is_ascii q = true /\ is_ascii (Product.name p) = true /\
       is_ascii (Product.description p) = true /\
       ilike (Product.name p) ("%" ++ q ++ "%")
       || ilike (Product.description p) ("%" ++ q ++ "%") = true) ->
    exists r,
      ProductService.get_products order_by db (Some f) limit 0 = Ok r /\
      In (ProductService.summary db p) r.
Proof.
  intros order_by db f limit p Hord Hlimit Hp Hc Hb Hmin Hmax Hs Hstock Hq.
  apply get_products_whole; auto.
  unfold ProductService.matching. apply filter_In. split; [exact Hp|].
  apply where_clauses_hold; auto.
  intros q Eq Hne. now destruct (Hq q Eq Hne) as (_ & _ & _ & H).
Qed.

Lemma get_products_complete_witness :
  order_by_contract order_ties_in_storage_order /\
  Z.of_nat (List.length (products Examples.seeded_db)) <= 20 < bigint_bound /\
  In Examples.memory_product (products Examples.seeded_db) /\
  is_ascii "ddr4" = true /\ is_ascii (Product.name Examples.memory_product) = true /\
  is_ascii (Product.description Examples.memory_product) = true /\
  exists r,
    ProductService.get_products order_ties_in_storage_order Examples.seeded_db
      (Some Examples.memory_search_filter) 20 0 = Ok r /\
    In (ProductService.summary Examples.seeded_db Examples.memory_product) r.
Proof.
  assert (Hlen : Z.of_nat (List.length (products Examples.seeded_db)) <= 20
                 < bigint_bound)
    by (split; vm_compute; [discriminate|reflexivity]).
  assert (Hin : In Examples.memory_product (products Examples.seeded_db))
    by (right; right; left; reflexivity).
  split; [exact order_ties_in_storage_order_ok|].
  split; [exact Hlen|]. split; [exact Hin|].
  split; [reflexivity|]. split; [reflexivity|]. split; [reflexivity|].
  apply (get_products_complete order_ties_in_storage_order Examples.seeded_db
           Examples.memory_search_filter 20 Examples.memory_product
           order_ties_in_storage_order_ok Hlen Hin).
  - intros c [= <-]. reflexivity.
  - intros b [= <-]. reflexivity.
  - intros m [= <-]. vm_compute. discriminate.
  - intros m [= <-]. vm_compute. discriminate.
  - intros st [= <-]. reflexivity.
  - intros _. reflexivity.
  - intros q [= <-] _. repeat split; reflexivity.
Defined.

Lemma ilike_percent_any s : like_match "%" s = true.
Proof.
  induction s as [|c s IH]; rewrite like_match_percent; [reflexivity|].
  rewrite IH. apply orb_true_r.
Qed.

Lemma like_percent_skip p suf : forall pre,
  like_match p suf = true -> like_match (String "%" p) (pre ++ suf) = true.
Proof.
  induction pre as [|c pre IH]; intros H; rewrite like_match_percent.
  - cbn [String.append]. now rewrite H.
  - cbn [String.append]. rewrite (IH H). apply orb_true_r.
Qed.

(** A pattern without backslash matches itself: [%] and [_] match the
    characters [%] and [_] too. *)
Lemma like_match_itself rest s : forall q,
  no_escape q = true -> like_match rest s = true ->
  like_match (q ++ rest) (q ++ s) = true.
Proof.
  induction q as [|c q IH]; intros Hq H; [exact H|].
  cbn [no_escape] in Hq. apply andb_true_iff in Hq as [Hc Hq].
  apply negb_true_iff in Hc. specialize (IH Hq H).
  cbn [String.append].
  destruct (Ascii.eqb c "%") eqn:E1.
  - apply Ascii.eqb_eq in E1. subst c.
    rewrite like_match_percent. apply orb_true_iff. right.
    rewrite like_match_percent. now rewrite IH.
  - cbn [like_match]. rewrite E1.
    destruct (Ascii.eqb c "_"); [exact IH|].
    rewrite Hc, Ascii.eqb_refl. exact IH.
Qed.

Lemma prefix_of_split q : forall s,
  prefix_of q s = true -> exists post, s = (q ++ post)%string.
Proof.
  induction q as [|c q IH]; intros s H; [now exists s|].
  destruct s as [|d s]; [discriminate|]. simpl in H.
  apply andb_true_iff in H as [Hcd H]. apply Ascii.eqb_eq in Hcd. subst d.
  destruct (IH s H) as [post ->]. now exists post.
Qed.

Lemma substring_of_split q : forall s,
  substring_of q s = true -> exists pre post, s = (pre ++ q ++ post)%string.
Proof.
  induction s as [|c s IH]; rewrite substring_of_unfold; intros H.
  - rewrite orb_false_r in H. apply prefix_of_split in H as [post ->].
    now exists EmptyString, post.
  - apply orb_true_iff in H as [H|H].
    + apply prefix_of_split in H as [post ->]. now exists EmptyString, post.
    + destruct (IH H) as (pre & post & ->). now exists (String c pre), post.
Qed.

Lemma lower_ascii_escape c : Ascii.eqb (lower_ascii c) "\" = Ascii.eqb c "\".
Proof.
  destruct c as [[] [] [] [] [] [] [] []]; vm_compute; reflexivity.
Qed.

Lemma no_escape_lower q : no_escape (lower q) = no_escape q.
Proof.
  induction q as [|c q IH]; simpl; [reflexivity|].
  now rewrite lower_ascii_escape, IH.
Qed.

(** The pattern [%q%] of a backslash-free [q] matches every string that
    holds [q], whatever the case of the letters. *)
Lemma contains_ilike q s :
  no_escape q = true -> contains_ci q s = true -> ilike s ("%" ++ q ++ "%") = true.
Proof.
  unfold ilike, contains_ci. intros Hq H.
  apply substring_of_split in H as (pre & post & ->).
  rewrite !lower_append. change (lower "%") with "%"%string.
  cbn [String.append]. apply like_percent_skip.
  apply like_match_itself; [now rewrite no_escape_lower|apply ilike_percent_any].
Qed.

Lemma get_products_length_le order_by db filters limit offset r :
  ProductService.get_products order_by db filters limit offset = Ok r ->
  Z.of_nat (List.length r) <= limit.
Proof.
  intros H. apply get_products_inv in H as (Hl & _ & ->).
  rewrite length_map, length_firstn. lia.
Qed.

Lemma get_products_matching order_by db f limit offset r s :
  order_by_contract order_by ->
  ProductService.get_products order_by db (Some f) limit offset = Ok r ->
  In s r ->
  exists p,
    In p (products db) /\ s = ProductService.summary db p /\
    ProductService.satisfies (ProductService.where_clauses f) p = true.
Proof.
  intros Hord Hget Hin.
  destruct (get_products_In _ _ _ _ _ _ _ Hord Hget Hin) as (p & Hp & ->).
  unfold ProductService.matching in Hp. apply filter_In in Hp as [Hp Hsat].
  exists p. auto.
Qed.

(** ** Featured products and search *)

(** X5. [get_featured_products] returns at most [limit] summaries, each of
    an ACTIVE product that is in stock and costs at most 200.00. *)
Theorem get_featured_products_spec :
  forall order_by db limit r,
    order_by_contract order_by ->
    ProductService.get_featured_products order_by db limit = Ok r ->
    Z.of_nat (List.length r) <= limit /\
    forall s, In s r ->
      ProductSummary.status s = ACTIVE /\
      0 < ProductSummary.stock_quantity s /\
      ProductSummary.price s <= 20000.
Proof.
  intros order_by db limit r Hord Hget.
  unfold ProductService.get_featured_products in Hget.
  split; [now apply get_products_length_le in Hget|].
  intros s Hin.
  destruct (get_products_matching _ _ _ _ _ _ _ Hord Hget Hin) as (p & _ & -> & Hsat).
  apply satisfies_where_clauses in Hsat as (_ & _ & _ & Hmax & Hs & Hstock).
  simpl. repeat split; [apply Hs|apply Hstock|apply Hmax]; reflexivity.
Qed.

Lemma get_featured_products_spec_witness :
  order_by_contract order_ties_in_storage_order /\
  exists r,
    ProductService.get_featured_products order_ties_in_storage_order
      Examples.seeded_db 5 = Ok r /\
    Z.of_nat (List.length r) <= 5.
Proof.
  split; [exact order_ties_in_storage_order_ok|].
  eexists. split; [reflexivity|].
  exact (proj1 (get_featured_products_spec order_ties_in_storage_order
                  Examples.seeded_db 5 _ order_ties_in_storage_order_ok eq_refl)).
Defined.

(** X6. [search_products] returns at most [limit] summaries, all of ACTIVE
    products.  On ASCII text, for a query of 1 to 200 characters without
    backslash and a limit below 2^63 of at least the number of stored
    products, it returns every ACTIVE product whose name or description
    holds the query in any case of the letters. *)
Theorem search_products_spec :
  forall order_by db query limit,
    order_by_contract order_by ->
    (forall r, ProductService.search_products order_by db query limit = Ok r ->
       Z.of_nat (List.length r) <= limit /\
       forall s, In s r -> ProductSummary.status s = ACTIVE) /\
    (query <> EmptyString -> (utf8_length query <= 200)%nat ->
     is_ascii query = true -> no_escape query = true ->
     Z.of_nat (List.length (products db)) <= limit < bigint_bound ->
     forall p, In p (products db) -> Product.status p = ACTIVE ->
       is_ascii (Product.name p) = true ->
       is_ascii (Product.description p) = true ->
       contains_ci query (Product.name p) = true
       \/ contains_ci query (Product.description p) = true ->
       exists r,
         ProductService.search_products order_by db query limit = Ok r /\
         In (ProductService.summary db p) r).
Proof.
  intros order_by db query limit Hord. split.
  - intros r Hget. unfold ProductService.search_products in Hget.
    destruct (200 <? utf8_length query)%nat; [discriminate|].
    split; [now apply get_products_length_le in Hget|].
    intros s Hin.
    destruct (get_products_matching _ _ _ _ _ _ _ Hord Hget Hin)
      as (p & _ & -> & Hsat).
    apply satisfies_where_clauses in Hsat as (_ & _ & _ & _ & Hs & _).
    apply Hs. reflexivity.
  - intros Hne Hlen _ Hesc Hlimit p Hp Hactive _ _ Hhas.
    unfold ProductService.search_products.
    destruct (Nat.ltb_spec 200 (utf8_length query)); [lia|].
    apply get_products_whole; auto.
    unfold ProductService.matching. apply filter_In. split; [exact Hp|].
    apply where_clauses_hold; simpl; try discriminate; auto.
    + now intros s [= <-].
    + intros q [= <-] _. apply orb_true_iff.
      destruct Hhas as [Hn|Hd]; [left|right]; now apply contains_ilike.
Qed.

Lemma search_products_spec_witness :
  order_by_contract order_ties_in_storage_order /\
  ("rtx"%string <> EmptyString) /\ (utf8_length "rtx" <= 200)%nat /\
  is_ascii "rtx" = true /\ no_escape "rtx" = true /\
  Z.of_nat (List.length (products Examples.seeded_db)) <= 20 < bigint_bound /\
  exists p,
    In p (products Examples.seeded_db) /\ Product.status p = ACTIVE /\
    is_ascii (Product.name p) = true /\ is_ascii (Product.description p) = true /\
    contains_ci "rtx" (Product.name p) = true /\
    exists r,
      ProductService.search_products order_ties_in_storage_order Examples.seeded_db
        "rtx" 20 = Ok r /\
      In (ProductService.summary Examples.seeded_db p) r.
Proof.
  assert (Hne : "rtx"%string <> EmptyString) by discriminate.
  assert (Hlen : (utf8_length "rtx" <= 200)%nat) by (simpl; lia).
  assert (Hlimit : Z.of_nat (List.length (products Examples.seeded_db)) <= 20
                   < bigint_bound)
    by (split; vm_compute; [discriminate|reflexivity]).
  split; [exact order_ties_in_storage_order_ok|].
  split; [exact Hne|]. split; [exact Hlen|]. split; [reflexivity|].
  split; [reflexivity|]. split; [exact Hlimit|].
  exists (hd Examples.memory_product (products Examples.seeded_db)).
  assert (Hin : In (hd Examples.memory_product (products Examples.seeded_db))
                  (products Examples.seeded_db)) by (left; reflexivity).
  split; [exact Hin|]. split; [reflexivity|]. split; [reflexivity|].
  split; [reflexivity|]. split; [reflexivity|].
  exact (proj2 (search_products_spec order_ties_in_storage_order Examples.seeded_db
                  "rtx" 20 order_ties_in_storage_order_ok)
           Hne Hlen eq_refl eq_refl Hlimit _ Hin eq_refl eq_refl eq_refl
           (or_introl eq_refl)).
Defined.

(** [search_products] refuses a query of more than 200 characters with a
    validation error, and treats the empty query as no text restriction. *)
Lemma search_products_edges :
  forall order_by db limit,
    (forall query, (200 < utf8_length query)%nat ->
       ProductService.search_products order_by db query limit
       = Raise ValidationError) /\
    ProductService.search_products order_by db EmptyString limit
    = ProductService.get_products order_by db
        (Some (ProductFilter.mk None None None None (Some ACTIVE) false None))
        limit 0.
Proof.
  intros order_by db limit. split.
  - intros query H. unfold ProductService.search_products.
    destruct (Nat.ltb_spec 200 (utf8_length query)); [reflexivity|lia].
  - reflexivity.
Qed.

(** ** Lookups by key *)

Section FindByKey.
Context {A K : Type} (key : A -> K) (eqb : K -> K -> bool).
Hypothesis eqb_eq : forall x y, eqb x y = true <-> x = y.

Lemma find_key_sound table k row :
  find (fun r => eqb (key r) k) table = Some row -> In row table /\ key row = k.
Proof.
  intros H. apply find_some in H as [Hin Hk]. split; [exact Hin|].
  now apply eqb_eq.
Qed.

Lemma find_key_none table k :
  find (fun r => eqb (key r) k) table = None <-> ~ In k (map key table).
Proof.
  split.
  - intros H Hin. apply in_map_iff in Hin as (r & Hk & Hr).
    pose proof (find_none _ _ H r Hr) as Hf. simpl in Hf.
    apply eqb_eq in Hk. congruence.
  - intros H. destruct (find _ table) as [row|] eqn:E; [|reflexivity].
    apply find_key_sound in E as [Hin <-]. destruct H. now apply in_map.
Qed.

Lemma find_key_complete table row :
  NoDup (map key table) -> In row table ->
  find (fun r => eqb (key r) (key row)) table = Some row.
Proof.
  intros Hnd Hin.
  destruct (find _ table) as [row'|] eqn:E.
  - apply find_key_sound in E as [Hin' Hk]. f_equal.
    now apply (NoDup_map_injective key table).
  - apply find_key_none in E. destruct E. now apply in_map.
Qed.
End FindByKey.

(** X7. Lookup by id returns a stored row with that id, for products,
    categories and brands; when the ids of a table are distinct, every
    stored row is found again by its own id. *)
Theorem get_by_id_round_trip :
  forall db,
    (forall i p, ProductService.get_product_by_id db i = Some p ->
       In p (products db) /\ Product.id p = i) /\
    (forall i c, CategoryService.get_category_by_id db i = Some c ->
       In c (categories db) /\ Category.id c = i) /\
    (forall i b, BrandService.get_brand_by_id db i = Some b ->
       In b (brands db) /\ Brand.id b = i) /\
    (keys_distinct db ->
     (forall p, In p (products db) ->
        ProductService.get_product_by_id db (Product.id p) = Some p) /\
     (forall c, In c (categories db) ->
        CategoryService.get_category_by_id db (Category.id c) = Some c) /\
     (forall b, In b (brands db) ->
        BrandService.get_brand_by_id db (Brand.id b) = Some b)).
Proof.
  intros db. repeat split.
  - now apply (find_key_sound Product.id Z.eqb Z.eqb_eq) in H.
  - now apply (find_key_sound Product.id Z.eqb Z.eqb_eq) in H.
  - now apply (find_key_sound Category.id Z.eqb Z.eqb_eq) in H.
  - now apply (find_key_sound Category.id Z.eqb Z.eqb_eq) in H.
  - now apply (find_key_sound Brand.id Z.eqb Z.eqb_eq) in H.
  - now apply (find_key_sound Brand.id Z.eqb Z.eqb_eq) in H.
  - intros p Hp. destruct H as (_ & _ & Hnd & _).
    now apply (find_key_complete Product.id Z.eqb Z.eqb_eq).
  - intros c Hc. destruct H as (Hnd & _).
    now apply (find_key_complete Category.id Z.eqb Z.eqb_eq).
  - intros b Hb. destruct H as (_ & Hnd & _).
    now apply (find_key_complete Brand.id Z.eqb Z.eqb_eq).
Qed.


(** ** The runs of the seeder *)

Lemma collides_split db :
  DataSeederService.collides db = categories_collide db || brands_collide db.
Proof. reflexivity. Qed.

Lemma seed_sample_data_outcome utcnow db :
  seed_outcome utcnow db (DataSeederService.seed_sample_data utcnow db).
Proof.
  destruct (products db) as [|p0 l0] eqn:Hp.
  - destruct (categories_collide db) eqn:Hc.
    + assert (E : exists column,
                 DataSeederService.seed_sample_data utcnow db
                 = (Raise (IntegrityError "categories" column), db)).
      { unfold DataSeederService.seed_sample_data, bind, first_product.
        rewrite Hp. cbn [hd_error]. unfold commit_categories.
        set (cs := assign_ids _ _).
        change (map Category.name cs)
          with (map (fun '(name, _, _) => name) DataSeederService.cat_data_list).
        change (map Category.slug cs)
          with (map (fun '(_, slug, _) => slug) DataSeederService.cat_data_list).
        unfold categories_collide in Hc.
        destruct (violates_unique (map Category.name (categories db)) _);
          [now eauto|].
        rewrite orb_false_l in Hc. rewrite Hc. now eauto. }
      destruct E as [column ->]. now constructor.
    + destruct (brands_collide db) eqn:Hb.
      * replace (DataSeederService.seed_sample_data utcnow db)
          with (Raise (A:=unit) (IntegrityError "brands" "name"),
                mkDatabase
                  (categories db
                   ++ DataSeederService.seeded_categories utcnow
                        (next_id (map Category.id (categories db))))
                  (brands db) (products db) (product_images db));
          [now constructor|].
        unfold categories_collide in Hc. apply orb_false_iff in Hc as [Hcn Hcs].
        unfold DataSeederService.seed_sample_data, bind, first_product.
        rewrite Hp. cbn [hd_error]. unfold commit_categories.
        fold (DataSeederService.seeded_categories utcnow
                (next_id (map Category.id (categories db)))).
        set (cs := DataSeederService.seeded_categories _ _).
        change (map Category.name cs)
          with (map (fun '(name, _, _) => name) DataSeederService.cat_data_list).
        change (map Category.slug cs)
          with (map (fun '(_, slug, _) => slug) DataSeederService.cat_data_list).
        rewrite Hcn, Hcs.
        unfold commit_brands. cbn [brands categories products product_images].
        set (bs := assign_ids _ _).
        change (map Brand.name bs) with (map fst DataSeederService.brand_data_list).
        unfold brands_collide in Hb. rewrite Hb, Hp. reflexivity.
      * rewrite seed_fresh; [now constructor|exact Hp|].
        now rewrite collides_split, Hc, Hb.
  - rewrite seed_existing by (rewrite Hp; discriminate).
    constructor. rewrite Hp. discriminate.
Qed.

Lemma mem_string_middle v stored rest : mem_string v (stored ++ v :: rest) = true.
Proof.
  unfold mem_string. rewrite existsb_app. simpl.
  rewrite String.eqb_refl. now rewrite orb_true_r.
Qed.

(** X9. A run of the seeder that raises stores no product and no image, and
    leaves the store in a state on which every later run raises as well and
    changes nothing: a run returns normally exactly when the store holds a
    product or no seeded name or slug is taken. *)
Theorem seed_sample_data_failure_is_permanent :
  forall utcnow db,
    (fst (DataSeederService.seed_sample_data utcnow db) = Ok tt <->
     products db <> [] \/ DataSeederService.collides db = false) /\
    (forall e db',
       DataSeederService.seed_sample_data utcnow db = (Raise e, db') ->
       products db' = [] /\ product_images db' = product_images db /\
       forall utcnow', exists e',
         DataSeederService.seed_sample_data utcnow' db' = (Raise e', db')).
Proof.
  intros utcnow db.
  pose proof (seed_sample_data_outcome utcnow db) as Hrun. split.
  - inversion Hrun as [Hp E|column Hp Hc E|Hp Hc Hb E|Hp Hc Hb cs bs ps ims E];
      cbn [fst]; rewrite collides_split; split; auto; try discriminate.
    + intros [H|H]; [now destruct H|]. rewrite Hc in H. discriminate.
    + intros [H|H]; [now destruct H|]. rewrite Hc, Hb in H. discriminate.
    + intros _. right. now rewrite Hc, Hb.
  - intros e db' E. rewrite E in Hrun.
    inversion Hrun as [Hp|column Hp Hc|Hp Hc Hb|]; subst.
    + split; [exact Hp|]. split; [reflexivity|]. intros utcnow'.
      pose proof (seed_sample_data_outcome utcnow' db') as Hrun'.
      inversion Hrun' as [Hp' E'|column' Hp' Hc' E'|Hp' Hc' Hb' E'|Hp' Hc' Hb'];
        try congruence.
      eauto.
    + split; [exact Hp|]. split; [reflexivity|]. intros utcnow'.
      match goal with
      | |- exists _, _ ?d = _ => pose proof (seed_sample_data_outcome utcnow' d) as Hrun'
      end.
      assert (Hc' : categories_collide
                      (mkDatabase
                         (categories db
                          ++ DataSeederService.seeded_categories utcnow
                               (next_id (map Category.id (categories db))))
                         (brands db) (products db) (product_images db)) = true).
      { unfold categories_collide. cbn [categories]. rewrite map_app.
        apply orb_true_iff. left.
        change (map Category.name
                  (DataSeederService.seeded_categories utcnow
                     (next_id (map Category.id (categories db)))))
          with (map (fun '(name, _, _) => name) DataSeederService.cat_data_list).
        cbn [map DataSeederService.cat_data_list violates_unique].
        now rewrite mem_string_middle. }
      inversion Hrun' as [Hp' E'|column' Hp' _ E'|Hp' Hc'' Hb' E'|Hp' Hc'' Hb'];
        try congruence; cbn [products] in *; try congruence.
      eauto.
Qed.

Lemma seed_sample_data_failure_is_permanent_witness :
  DataSeederService.seed_sample_data Examples.clock Examples.memory_only_db
  = (Raise (IntegrityError "categories" "name"), Examples.memory_only_db) /\
  products Examples.memory_only_db = [] /\
  exists e',
    DataSeederService.seed_sample_data Examples.clock Examples.memory_only_db
    = (Raise e', Examples.memory_only_db).
Proof.
  split; [reflexivity|].
  destruct (proj2 (seed_sample_data_failure_is_permanent Examples.clock
                     Examples.memory_only_db)
              _ _ (eq_refl : DataSeederService.seed_sample_data Examples.clock
                               Examples.memory_only_db
                             = (Raise (IntegrityError "categories" "name"),
                                Examples.memory_only_db)))
    as (Hp & _ & Hagain).
  split; [exact Hp|]. exact (Hagain Examples.clock).
Defined.

(** ** What the seeder keeps *)

Lemma next_id_fresh ids x : In x ids -> x < next_id ids.
Proof.
  unfold next_id. induction ids as [|y ids IH]; cbn [fold_right]; intros H;
    [destruct H|].
  destruct H as [->|H]; [lia|]. specialize (IH H). lia.
Qed.

(** Keys handed out by one flush ascend from the first free key. *)
Lemma assign_ids_ascending {A} (pk : A -> Z) (pending : list (Z -> A)) :
  Forall (fun obj => forall i, pk (obj i) = i) pending ->
  forall first,
    StronglySorted Z.lt (map pk (assign_ids first pending)) /\
    Forall (fun x => first <= x) (map pk (assign_ids first pending)).
Proof.
  induction 1 as [|obj pending Hobj _ IH]; intros first; simpl.
  - split; constructor.
  - destruct (IH (first + 1)) as [Hs Hge]. rewrite Hobj. split.
    + constructor; [exact Hs|].
      eapply Forall_impl; [|exact Hge]. simpl. intros. lia.
    + constructor; [lia|].
      eapply Forall_impl; [|exact Hge]. simpl. intros. lia.
Qed.

Lemma StronglySorted_lt_NoDup l : StronglySorted Z.lt l -> NoDup l.
Proof.
  induction 1 as [|x l _ IH Hx]; constructor; [|exact IH].
  intros Hin. rewrite Forall_forall in Hx. specialize (Hx x Hin). lia.
Qed.

Lemma NoDup_app_intro {A} (l1 l2 : list A) :
  NoDup l1 -> NoDup l2 -> (forall x, In x l1 -> In x l2 -> False) -> NoDup (l1 ++ l2).
Proof.
  induction l1 as [|a l1 IH]; simpl; intros H1 H2 Hd; [exact H2|].
  inversion H1; subst. constructor.
  - intros Hin. apply in_app_or in Hin as [Hin|Hin]; [contradiction|].
    apply (Hd a); auto.
  - apply IH; auto. intros x Hx. apply Hd. now right.
Qed.

Lemma assign_ids_keeps_keys_distinct {A} (pk : A -> Z) (stored : list A)
    (pending : list (Z -> A)) :
  Forall (fun obj => forall i, pk (obj i) = i) pending ->
  NoDup (map pk stored) ->
  NoDup (map pk (stored ++ assign_ids (next_id (map pk stored)) pending)).
Proof.
  intros Hpending Hnd. rewrite map_app.
  destruct (assign_ids_ascending pk pending Hpending (next_id (map pk stored)))
    as [Hs Hge].
  apply NoDup_app_intro; [exact Hnd|now apply StronglySorted_lt_NoDup|].
  intros x Hold Hnew. apply next_id_fresh in Hold.
  rewrite Forall_forall in Hge. specialize (Hge x Hnew). lia.
Qed.

Lemma mem_string_In v l : mem_string v l = true <-> In v l.
Proof.
  unfold mem_string. rewrite existsb_exists. split.
  - intros (x & Hx & E). apply String.eqb_eq in E. now subst.
  - intros H. exists v. split; [exact H|apply String.eqb_refl].
Qed.

Lemma violates_unique_false stored : forall new,
  violates_unique stored new = false ->
  NoDup new /\ forall x, In x stored -> In x new -> False.
Proof.
  induction new as [|v new IH]; simpl; intros H.
  - split; [constructor|]. intros x _ [].
  - apply orb_false_iff in H as [H Hrest]. apply orb_false_iff in H as [Hs Hn].
    destruct (IH Hrest) as [Hnd Hdisj]. split.
    + constructor; [|exact Hnd]. intros Hin.
      apply mem_string_In in Hin. congruence.
    + intros x Hx [<-|Hin]; [|now apply (Hdisj x)].
      apply mem_string_In in Hx. congruence.
Qed.

Lemma commit_keeps_unique stored new :
  NoDup stored -> violates_unique stored new = false -> NoDup (stored ++ new).
Proof.
  intros Hnd H. apply violates_unique_false in H as [Hnew Hdisj].
  now apply NoDup_app_intro.
Qed.

Lemma seeded_categories_take_keys utcnow :
  Forall (fun obj : Z -> Category.t => forall i, Category.id (obj i) = i)
    (DataSeederService.enumerate
       (fun k '(name, slug, description) =>
          DataSeederService.new_category name slug description (utcnow k))
       0 DataSeederService.cat_data_list).
Proof. repeat constructor. Qed.

Lemma seeded_brands_take_keys utcnow :
  Forall (fun obj : Z -> Brand.t => forall i, Brand.id (obj i) = i)
    (DataSeederService.enumerate
       (fun k '(name, description) =>
          DataSeederService.new_brand name description (utcnow k))
       8 DataSeederService.brand_data_list).
Proof. repeat constructor. Qed.

Lemma seeded_products_take_keys utcnow cs bs :
  Forall (fun obj : Z -> Product.t => forall i, Product.id (obj i) = i)
    (DataSeederService.enumerate
       (fun k product_data =>
          product_data (utcnow (16 + 2 * k)%nat) (utcnow (17 + 2 * k)%nat))
       0 (DataSeederService.products_data cs bs)).
Proof. repeat constructor. Qed.

Lemma seeded_images_take_keys utcnow ps :
  Forall (fun obj : Z -> ProductImage.t => forall i, ProductImage.id (obj i) = i)
    (DataSeederService.enumerate (fun k img_data => img_data (utcnow k)) 32
       (DataSeederService.sample_images ps)).
Proof. repeat constructor. Qed.

Lemma database_eta db :
  db = mkDatabase (categories db) (brands db) (products db) (product_images db).
Proof. destruct db. reflexivity. Qed.

(** X10. A run of the seeder only appends: whatever its outcome, every
    table of the store afterwards starts with the rows it held before, in
    the same order. *)
Theorem seed_sample_data_only_appends :
  forall utcnow db,
    exists cs bs ps ims,
      snd (DataSeederService.seed_sample_data utcnow db)
      = mkDatabase (categories db ++ cs) (brands db ++ bs) (products db ++ ps)
          (product_images db ++ ims).
Proof.
  intros utcnow db.
  pose proof (seed_sample_data_outcome utcnow db) as Hrun.
  inversion Hrun as [Hp E|column Hp Hc E|Hp Hc Hb E|Hp Hc Hb cs bs ps ims E];
    cbn [snd].
  - exists [], [], [], []. rewrite !app_nil_r. apply database_eta.
  - exists [], [], [], []. rewrite !app_nil_r. apply database_eta.
  - exists (DataSeederService.seeded_categories utcnow
              (next_id (map Category.id (categories db)))), [], [], [].
    now rewrite !app_nil_r.
  - exists cs, bs, ps, ims. now rewrite Hp.
Qed.

(** X11. A run of the seeder keeps the primary keys of the four tables
    distinct and the unique columns (category name and slug, brand name,
    product sku and slug) free of repeated values, whatever its outcome. *)
Theorem seed_sample_data_keeps_keys :
  forall utcnow db,
    keys_distinct db -> unique_columns_hold db ->
    keys_distinct (snd (DataSeederService.seed_sample_data utcnow db)) /\
    unique_columns_hold (snd (DataSeederService.seed_sample_data utcnow db)).
Proof.
  intros utcnow db (Kc & Kb & Kp & Ki) (Ucn & Ucs & Ubn & Upk & Ups).
  pose proof (seed_sample_data_outcome utcnow db) as Hrun.
  inversion Hrun as [Hp E|column Hp Hc E|Hp Hc Hb E|Hp Hc Hb cs bs ps ims E];
    cbn [snd]; unfold keys_distinct, unique_columns_hold;
    cbn [categories brands products product_images].
  - repeat split; assumption.
  - repeat split; assumption.
  - unfold categories_collide in Hc. apply orb_false_iff in Hc as [Hcn Hcs].
    repeat split; try assumption.
    + apply assign_ids_keeps_keys_distinct;
        [apply seeded_categories_take_keys|exact Kc].
    + rewrite map_app. now apply commit_keeps_unique.
    + rewrite map_app. now apply commit_keeps_unique.
  - unfold categories_collide in Hc. apply orb_false_iff in Hc as [Hcn Hcs].
    repeat split.
    + apply assign_ids_keeps_keys_distinct;
        [apply seeded_categories_take_keys|exact Kc].
    + apply assign_ids_keeps_keys_distinct;
        [apply seeded_brands_take_keys|exact Kb].
    + apply (assign_ids_keeps_keys_distinct Product.id []);
        [apply seeded_products_take_keys|constructor].
    + apply assign_ids_keeps_keys_distinct;
        [apply seeded_images_take_keys|exact Ki].
    + rewrite map_app. now apply commit_keeps_unique.
    + rewrite map_app. now apply commit_keeps_unique.
    + rewrite map_app. now apply commit_keeps_unique.
    + apply (commit_keeps_unique []); [constructor|]. vm_compute. reflexivity.
    + apply (commit_keeps_unique []); [constructor|]. vm_compute. reflexivity.
Qed.

Lemma In_map_app_l {A B} (f : A -> B) (l l' : list A) x :
  In x (map f l) -> In x (map f (l ++ l')).
Proof. intros H. rewrite map_app. apply in_or_app. now left. Qed.

Lemma In_map_app_r {A B} (f : A -> B) (l l' : list A) x :
  In x (map f l') -> In x (map f (l ++ l')).
Proof. intros H. rewrite map_app. apply in_or_app. now right. Qed.

(** X12. A run of the seeder keeps the foreign keys valid, whatever its
    outcome: afterwards every category and brand reference of a product and
    every product reference of an image still points to a stored row. *)
Theorem seed_sample_data_keeps_foreign_keys :
  forall utcnow db,
    foreign_keys_valid db ->
    foreign_keys_valid (snd (DataSeederService.seed_sample_data utcnow db)).
Proof.
  intros utcnow db (Fc & Fb & Fi).
  pose proof (seed_sample_data_outcome utcnow db) as Hrun.
  inversion Hrun as [Hp E|column Hp Hc E|Hp Hc Hb E|Hp Hc Hb cs bs ps ims E];
    cbn [snd]; unfold foreign_keys_valid;
    cbn [categories brands products product_images].
  - repeat split; assumption.
  - repeat split; assumption.
  - repeat split.
    + intros p c Hin Hcat. apply In_map_app_l. eauto.
    + exact Fb.
    + exact Fi.
  - repeat split.
    + intros p c Hin Hcat. apply In_map_app_r.
      simpl in Hin.
      repeat (destruct Hin as [<-|Hin];
              [injection Hcat as <-; simpl; auto 10|]).
      destruct Hin.
    + intros p b Hin Hbrand. apply In_map_app_r.
      simpl in Hin.
      repeat (destruct Hin as [<-|Hin];
              [injection Hbrand as <-; simpl; auto 10|]).
      destruct Hin.
    + intros im Hin. apply in_app_or in Hin as [Hin|Hin].
      * specialize (Fi im Hin). rewrite Hp in Fi. destruct Fi.
      * simpl in Hin.
        repeat (destruct Hin as [<-|Hin]; [simpl; auto 10|]).
        destruct Hin.
Qed.

Lemma empty_db_well_formed :
  keys_distinct empty_db /\ unique_columns_hold empty_db /\
  foreign_keys_valid empty_db.
Proof.
  repeat split; try constructor; simpl; intros; contradiction.
Qed.

Lemma seed_sample_data_keeps_keys_witness :
  keys_distinct empty_db /\ unique_columns_hold empty_db /\
  keys_distinct (snd (DataSeederService.seed_sample_data Examples.clock empty_db)) /\
  unique_columns_hold
    (snd (DataSeederService.seed_sample_data Examples.clock empty_db)).
Proof.
  destruct empty_db_well_formed as (K & U & _).
  split; [exact K|]. split; [exact U|].
  exact (seed_sample_data_keeps_keys Examples.clock empty_db K U).
Defined.

Lemma seed_sample_data_keeps_foreign_keys_witness :
  foreign_keys_valid empty_db /\
  foreign_keys_valid
    (snd (DataSeederService.seed_sample_data Examples.clock empty_db)).
Proof.
  destruct empty_db_well_formed as (_ & _ & F).
  split; [exact F|].
  exact (seed_sample_data_keeps_foreign_keys Examples.clock empty_db F).
Defined.

(** The seeded store is well keyed. *)
Lemma seeded_db_well_keyed :
  keys_distinct Examples.seeded_db /\ unique_columns_hold Examples.seeded_db.
Proof.
  split.
  - repeat split; simpl; repeat constructor; simpl; intuition discriminate.
  - repeat split; apply (commit_keeps_unique []); try constructor;
      vm_compute; reflexivity.
Qed.

Lemma get_by_id_round_trip_witness :
  keys_distinct Examples.seeded_db /\
  In Examples.memory_product (products Examples.seeded_db) /\
  ProductService.get_product_by_id Examples.seeded_db
    (Product.id Examples.memory_product) = Some Examples.memory_product.
Proof.
  assert (Hin : In Examples.memory_product (products Examples.seeded_db))
    by (right; right; left; reflexivity).
  split; [exact (proj1 seeded_db_well_keyed)|]. split; [exact Hin|].
  destruct (get_by_id_round_trip Examples.seeded_db) as (_ & _ & _ & Hfound).
  exact (proj1 (Hfound (proj1 seeded_db_well_keyed)) _ Hin).
Defined.


(** ** Images: the listing, the card and the gallery *)

Lemma insert_by_display_order_perm im l :
  Permutation (im :: l) (insert_by_display_order im l).
Proof.
  induction l as [|x r IH]; simpl; [reflexivity|].
  destruct (ProductImage.display_order im <=? ProductImage.display_order x);
    [reflexivity|].
  rewrite perm_swap. now constructor.
Qed.

Lemma insert_by_display_order_sorted im l :
  StronglySorted display_order_asc l ->
  StronglySorted display_order_asc (insert_by_display_order im l).
Proof.
  induction l as [|x r IH]; simpl; intros Hs.
  - repeat constructor.
  - inversion Hs as [|? ? Hr Hx]; subst.
    destruct (Z.leb_spec (ProductImage.display_order im)
                (ProductImage.display_order x)) as [Hle|Hlt].
    + constructor; [exact Hs|]. constructor; [exact Hle|].
      eapply Forall_impl; [|exact Hx]. unfold display_order_asc. simpl. intros. lia.
    + constructor; [now apply IH|].
      eapply Permutation_Forall; [apply insert_by_display_order_perm|].
      constructor; [unfold display_order_asc; lia|exact Hx].
Qed.

Lemma order_images_in_storage_order_ok :
  display_order_contract order_images_in_storage_order.
Proof.
  intros rows. unfold order_images_in_storage_order.
  induction rows as [|im rows [IHp IHs]]; simpl.
  - split; constructor.
  - split.
    + etransitivity; [|apply insert_by_display_order_perm]. now constructor.
    + now apply insert_by_display_order_sorted.
Qed.

Lemma get_product_images_In order_by db pid im :
  display_order_contract order_by ->
  In im (ProductService.get_product_images order_by db pid) <->
  In im (product_images db) /\ ProductImage.product_id im = pid.
Proof.
  intros Hord. unfold ProductService.get_product_images.
  destruct (Hord (filter (fun x => ProductImage.product_id x =? pid)
                    (product_images db))) as [Hperm _].
  split.
  - intros H. apply (Permutation_in _ (Permutation_sym Hperm)) in H.
    apply filter_In in H as [Hin Hid]. apply Z.eqb_eq in Hid. auto.
  - intros [Hin Hid]. apply (Permutation_in _ Hperm).
    apply filter_In. split; [exact Hin|]. now apply Z.eqb_eq.
Qed.

(** X13. [get_product_images] returns the stored images of the product and
    no other, as many as are stored, whatever order the store gives them;
    for a product without images it returns the empty list. *)
Theorem get_product_images_spec :
  forall order_by db product_id,
    reorders order_by ->
    let images := ProductService.get_product_images order_by db product_id in
    (forall im, In im images <->
       In im (product_images db) /\ ProductImage.product_id im = product_id) /\
    List.length images
    = List.length
        (filter (fun x => ProductImage.product_id x =? product_id) (product_images db)) /\
    ((forall im, In im (product_images db) ->
        ProductImage.product_id im <> product_id) -> images = []).
Proof.
  intros order_by db pid Hord images. subst images.
  unfold ProductService.get_product_images.
  set (mine := filter _ (product_images db)).
  pose proof (Hord mine) as Hperm.
  assert (Hiff : forall im, In im (order_by mine) <->
                   In im (product_images db) /\ ProductImage.product_id im = pid).
  { intros im. split.
    - intros H. apply (Permutation_in _ (Permutation_sym Hperm)) in H.
      apply filter_In in H as [Hin Hid]. apply Z.eqb_eq in Hid. auto.
    - intros [Hin Hid]. apply (Permutation_in _ Hperm).
      apply filter_In. split; [exact Hin|]. now apply Z.eqb_eq. }
  split; [exact Hiff|]. split; [symmetry; now apply Permutation_length|].
  intros Hnone. destruct (order_by mine) as [|im l] eqn:E; [reflexivity|].
  destruct (proj1 (Hiff im) (or_introl eq_refl)) as [Hin Hid].
  now destruct (Hnone im Hin).
Qed.

Lemma get_product_images_spec_witness :
  reorders order_images_in_storage_order /\
  List.length
    (ProductService.get_product_images order_images_in_storage_order
       Examples.seeded_db 3)
  = List.length
      (filter (fun x => ProductImage.product_id x =? 3)
         (product_images Examples.seeded_db)).
Proof.
  assert (Hord : reorders order_images_in_storage_order)
    by (intros rows; apply order_images_in_storage_order_ok).
  split; [exact Hord|].
  destruct (get_product_images_spec order_images_in_storage_order
              Examples.seeded_db 3 Hord) as (_ & Hlen & _).
  exact Hlen.
Defined.

(** X14. The gallery of the detail page shows the placeholder exactly when
    the product has no image.  Otherwise it shows one of the images: a
    flagged one when some image is flagged primary, the first of the list
    when none is. *)
Theorem gallery_image_spec :
  forall images,
    (Components.gallery_image images = None <-> images = []) /\
    (forall im, Components.gallery_image images = Some im ->
       In im images /\
       ((exists x, In x images /\ ProductImage.is_primary x = true) ->
        ProductImage.is_primary im = true) /\
       ((forall x, In x images -> ProductImage.is_primary x = false) ->
        hd_error images = Some im)).
Proof.
  intros images. split.
  - destruct images; simpl; split; intros H; congruence.
  - intros im H. destruct images as [|first rest]; [discriminate|].
    cbn [Components.gallery_image] in H.
    destruct (find ProductImage.is_primary (first :: rest)) as [img|] eqn:E;
      injection H as <-.
    + apply find_some in E as [Hin Hprim]. repeat split; auto.
      intros Hnone. rewrite (Hnone img Hin) in Hprim. discriminate.
    + split; [now left|]. split; [|reflexivity].
      intros (x & Hx & Hprim). pose proof (find_none _ _ E x Hx). congruence.
Qed.

(** X15. When no product has two images flagged primary, the card and the
    detail page agree: if the card of a product shows an image URL, the
    gallery of that product shows an image with this URL. *)
Theorem card_and_gallery_agree :
  forall order_by db product url,
    display_order_contract order_by ->
    (forall a b, In a (product_images db) -> In b (product_images db) ->
       ProductImage.product_id a = ProductImage.product_id b ->
       ProductImage.is_primary a = true -> ProductImage.is_primary b = true ->
       a = b) ->
    Components.card_image (ProductService.summary db product) = Some url ->
    exists im,
      Components.detail_image order_by db product = Some im /\
      ProductImage.image_url im = url.
Proof.
  intros order_by db product url Hord Hone Hcard.
  unfold Components.card_image in Hcard. cbn [ProductService.summary
    ProductSummary.primary_image_url] in Hcard.
  destruct (ProductService.primary_image db (Product.id product)) as [im0|] eqn:E;
    [|discriminate].
  assert (Hurl : ProductImage.image_url im0 = url).
  { simpl in Hcard. destruct (ProductImage.image_url im0); [discriminate|].
    now injection Hcard. }
  apply primary_image_Some in E as (Hin0 & Hid0 & Hprim0).
  exists im0. split; [|exact Hurl].
  unfold Components.detail_image. rewrite or_0_id.
  pose proof (fun im => get_product_images_In order_by db (Product.id product)
                          im Hord) as Hiff.
  assert (Hmine : In im0 (ProductService.get_product_images order_by db
                            (Product.id product)))
    by (apply Hiff; auto).
  destruct (ProductService.get_product_images order_by db (Product.id product))
    as [|first rest] eqn:El; [destruct Hmine|].
  cbn [Components.gallery_image].
  destruct (find ProductImage.is_primary (first :: rest)) as [img|] eqn:Ef.
  - apply find_some in Ef as [Hin Hprim].
    apply Hiff in Hin as [Hin Hid]. f_equal.
    apply Hone; auto. congruence.
  - pose proof (find_none _ _ Ef im0 Hmine). congruence.
Qed.

Lemma seeded_images_one_per_product :
  forall a b,
    In a (product_images Examples.seeded_db) ->
    In b (product_images Examples.seeded_db) ->
    ProductImage.product_id a = ProductImage.product_id b ->
    ProductImage.is_primary a = true -> ProductImage.is_primary b = true -> a = b.
Proof.
  intros a b Ha Hb E _ _.
  apply (NoDup_map_injective ProductImage.product_id
           (product_images Examples.seeded_db)); auto.
  simpl. repeat constructor; simpl; intuition discriminate.
Qed.

Lemma card_and_gallery_agree_witness :
  display_order_contract order_images_in_storage_order /\
  Components.card_image
    (ProductService.summary Examples.seeded_db Examples.memory_product)
  = Some "https://images.unsplash.com/photo-1562976540-1502c2145186?w=400"%string /\
  exists im,
    Components.detail_image order_images_in_storage_order Examples.seeded_db
      Examples.memory_product = Some im /\
    ProductImage.image_url im
    = "https://images.unsplash.com/photo-1562976540-1502c2145186?w=400"%string.
Proof.
  split; [exact order_images_in_storage_order_ok|]. split; [reflexivity|].
  exact (card_and_gallery_agree order_images_in_storage_order Examples.seeded_db
           Examples.memory_product _ order_images_in_storage_order_ok
           seeded_images_one_per_product eq_refl).
Defined.

(** ** Category and brand listings *)

Lemma is_root_None c : CategoryService.is_root c = true <-> Category.parent_id c = None.
Proof.
  unfold CategoryService.is_root.
  destruct (Category.parent_id c); split; congruence.
Qed.

(** X16. [get_all_categories] and [get_all_brands] list exactly the active
    rows; [get_root_categories] lists exactly the active categories without
    parent, all of which [get_all_categories] lists too; the home page shows
    at most six of the roots. *)
Theorem listings_show_active_rows :
  forall order_categories order_brands db,
    reorders order_categories -> reorders order_brands ->
    (forall c, In c (CategoryService.get_all_categories order_categories db) <->
       In c (categories db) /\ Category.is_active c = true) /\
    (forall b, In b (BrandService.get_all_brands order_brands db) <->
       In b (brands db) /\ Brand.is_active b = true) /\
    (forall c, In c (CategoryService.get_root_categories order_categories db) <->
       In c (categories db) /\ Category.is_active c = true /\
       Category.parent_id c = None) /\
    (forall c, In c (CategoryService.get_root_categories order_categories db) ->
       In c (CategoryService.get_all_categories order_categories db)) /\
    (List.length (Pages.home_categories order_categories db) <= 6)%nat /\
    (forall c, In c (Pages.home_categories order_categories db) ->
       In c (CategoryService.get_root_categories order_categories db)).
Proof.
  intros oc ob db Hoc Hob.
  assert (Hall : forall c,
            In c (CategoryService.get_all_categories oc db) <->
            In c (categories db) /\ Category.is_active c = true).
  { intros c. unfold CategoryService.get_all_categories. rewrite <- filter_In.
    split; apply Permutation_in; [symmetry|]; apply Hoc. }
  assert (Hroot : forall c,
            In c (CategoryService.get_root_categories oc db) <->
            In c (categories db) /\ Category.is_active c = true /\
            Category.parent_id c = None).
  { intros c. unfold CategoryService.get_root_categories.
    rewrite <- is_root_None.
    transitivity (In c (filter Category.is_active
                          (filter CategoryService.is_root (categories db)))).
    - split; apply Permutation_in; [symmetry|]; apply Hoc.
    - rewrite !filter_In. tauto. }
  split; [exact Hall|]. split.
  { intros b. unfold BrandService.get_all_brands. rewrite <- filter_In.
    split; apply Permutation_in; [symmetry|]; apply Hob. }
  split; [exact Hroot|]. split.
  { intros c Hc. apply Hall. apply Hroot in Hc. tauto. }
  split.
  - unfold Pages.home_categories. rewrite length_firstn. lia.
  - intros c Hc. unfold Pages.home_categories in Hc. now apply In_firstn in Hc.
Qed.

Lemma listings_show_active_rows_witness :
  reorders (fun rows : list Category.t => rows) /\
  reorders (fun rows : list Brand.t => rows) /\
  (List.length (Pages.home_categories (fun rows => rows) Examples.seeded_db) <= 6)%nat.
Proof.
  split; [exact reorders_id|]. split; [exact reorders_id|].
  destruct (listings_show_active_rows (fun rows => rows) (fun rows => rows)
              Examples.seeded_db reorders_id reorders_id)
    as (_ & _ & _ & _ & H & _).
  exact H.
Defined.

(** ** Pages *)



(** ** How the aggregates and the listing fit together *)

Lemma price_range_bounds db p :
  In p (products db) -> Product.status p = ACTIVE ->
  ProductService.PriceRange.min (ProductService.get_price_range db) <= Product.price p
  <= ProductService.PriceRange.max (ProductService.get_price_range db).
Proof.
  intros Hp Hs.
  assert (Hact : In p (filter is_active_product (products db)))
    by now apply active_filter_In.
  unfold ProductService.get_price_range. fold is_active_product.
  destruct (filter is_active_product (products db)) as [|a l]; [destruct Hact|].
  cbn [map ProductService.PriceRange.min ProductService.PriceRange.max].
  destruct (list_min_spec (map Product.price l) (Product.price a)) as [_ Hle].
  destruct (list_max_spec (map Product.price l) (Product.price a)) as [_ Hge].
  rewrite Forall_forall in Hle, Hge.
  assert (Hin : In (Product.price p) (Product.price a :: map Product.price l))
    by (change (In (Product.price p) (map Product.price (a :: l))); now apply in_map).
  split; [now apply Hle|now apply Hge].
Qed.

(** X19. Filtering the ACTIVE products by the bounds of [get_price_range]
    loses none of them: with offset 0 and a limit below 2^63 of at least the
    number of stored products, every ACTIVE product is returned. *)
Theorem price_range_filter_keeps_active :
  forall order_by db limit p,
    order_by_contract order_by ->
    Z.of_nat (List.length (products db)) <= limit < bigint_bound ->
    In p (products db) -> Product.status p = ACTIVE ->
    let range := ProductService.get_price_range db in
    exists r,
      ProductService.get_products order_by db
        (Some (ProductFilter.mk None None
                 (Some (ProductService.PriceRange.min range))
                 (Some (ProductService.PriceRange.max range))
                 (Some ACTIVE) false None))
        limit 0 = Ok r /\
      In (ProductService.summary db p) r.
Proof.
  intros order_by db limit p Hord Hlimit Hp Hs range.
  destruct (price_range_bounds db p Hp Hs) as [Hmin Hmax].
  apply get_products_whole; auto.
  unfold ProductService.matching. apply filter_In. split; [exact Hp|].
  apply where_clauses_hold; simpl; try discriminate.
  - now intros m [= <-].
  - now intros m [= <-].
  - now intros s [= <-].
Qed.

Lemma price_range_filter_keeps_active_witness :
  order_by_contract order_ties_in_storage_order /\
  Z.of_nat (List.length (products Examples.seeded_db)) <= 20 < bigint_bound /\
  In Examples.memory_product (products Examples.seeded_db) /\
  Product.status Examples.memory_product = ACTIVE /\
  exists r,
    ProductService.get_products order_ties_in_storage_order Examples.seeded_db
      (Some (ProductFilter.mk None None
               (Some (ProductService.PriceRange.min
                        (ProductService.get_price_range Examples.seeded_db)))
               (Some (ProductService.PriceRange.max
                        (ProductService.get_price_range Examples.seeded_db)))
               (Some ACTIVE) false None))
      20 0 = Ok r /\
    In (ProductService.summary Examples.seeded_db Examples.memory_product) r.
Proof.
  assert (Hlen : Z.of_nat (List.length (products Examples.seeded_db)) <= 20
                 < bigint_bound)
    by (split; vm_compute; [discriminate|reflexivity]).
  assert (Hin : In Examples.memory_product (products Examples.seeded_db))
    by (right; right; left; reflexivity).
  split; [exact order_ties_in_storage_order_ok|].
  split; [exact Hlen|]. split; [exact Hin|]. split; [reflexivity|].
  exact (price_range_filter_keeps_active order_ties_in_storage_order
           Examples.seeded_db 20 Examples.memory_product
           order_ties_in_storage_order_ok Hlen Hin eq_refl).
Defined.

Lemma listing_size order_by db f limit :
  order_by_contract order_by -> 0 <= limit < bigint_bound ->
  exists r,
    ProductService.get_products order_by db (Some f) limit 0 = Ok r /\
    List.length r
    = Nat.min (Z.to_nat limit)
        (List.length
           (filter (ProductService.satisfies (ProductService.where_clauses f))
              (products db))).
Proof.
  intros Hord Hl.
  rewrite get_products_ok by (unfold bigint_bound in *; lia).
  eexists. split; [reflexivity|].
  change (Z.to_nat 0) with 0%nat.
  rewrite length_map, page_length, Nat.sub_0_r.
  now rewrite <- (Permutation_length (proj1 (Hord _))).
Qed.

(** X20. The product count shown for a category (a brand) is the size of
    its listing: [get_products] filtered on that category (brand) and on
    status ACTIVE, at offset 0 and with a limit from 0 to below 2^63,
    returns [min(limit, product_count)] summaries. *)
Theorem product_count_is_listing_size :
  forall order_by order_categories order_brands db limit,
    order_by_contract order_by -> 0 <= limit < bigint_bound ->
    (forall c n,
       In (c, n) (CategoryService.get_categories_with_product_counts
                    order_categories db) ->
       exists r,
         ProductService.get_products order_by db
           (Some (ProductFilter.mk (Some (Category.id c)) None None None
                    (Some ACTIVE) false None)) limit 0 = Ok r /\
         List.length r = Nat.min (Z.to_nat limit) n) /\
    (forall b n,
       In (b, n) (BrandService.get_brands_with_product_counts order_brands db) ->
       exists r,
         ProductService.get_products order_by db
           (Some (ProductFilter.mk None (Some (Brand.id b)) None None
                    (Some ACTIVE) false None)) limit 0 = Ok r /\
         List.length r = Nat.min (Z.to_nat limit) n).
Proof.
  intros order_by oc ob db limit Hord Hl. split.
  - intros c n Hin.
    unfold CategoryService.get_categories_with_product_counts in Hin.
    apply in_map_iff in Hin as (c' & [= <- <-] & _).
    destruct (listing_size order_by db
                (ProductFilter.mk (Some (Category.id c')) None None None
                   (Some ACTIVE) false None) limit Hord Hl) as (r & Hget & Hlen).
    exists r. split; [exact Hget|]. rewrite Hlen, filter_filter. f_equal. f_equal.
    apply filter_ext. intros p. simpl. now rewrite andb_true_r.
  - intros b n Hin.
    unfold BrandService.get_brands_with_product_counts in Hin.
    apply in_map_iff in Hin as (b' & [= <- <-] & _).
    destruct (listing_size order_by db
                (ProductFilter.mk None (Some (Brand.id b')) None None
                   (Some ACTIVE) false None) limit Hord Hl) as (r & Hget & Hlen).
    exists r. split; [exact Hget|]. rewrite Hlen, filter_filter. f_equal. f_equal.
    apply filter_ext. intros p. simpl. now rewrite andb_true_r.
Qed.

Lemma product_count_is_listing_size_witness :
  order_by_contract order_ties_in_storage_order /\ 0 <= 50 < bigint_bound /\
  In (Examples.memory_category, 1%nat)
     (CategoryService.get_categories_with_product_counts (fun rows => rows)
        Examples.seeded_db) /\
  exists r,
    ProductService.get_products order_ties_in_storage_order Examples.seeded_db
      (Some (ProductFilter.mk (Some 3) None None None (Some ACTIVE) false None))
      50 0 = Ok r /\
    List.length r = Nat.min (Z.to_nat 50) 1.
Proof.
  assert (H50 : 0 <= 50 < bigint_bound) by (apply in_store_range; lia).
  assert (Hin : In (Examples.memory_category, 1%nat)
                  (CategoryService.get_categories_with_product_counts
                     (fun rows => rows) Examples.seeded_db))
    by (right; right; left; reflexivity).
  split; [exact order_ties_in_storage_order_ok|]. split; [exact H50|].
  split; [exact Hin|].
  exact (proj1 (product_count_is_listing_size order_ties_in_storage_order
                  (fun rows => rows) (fun rows => rows) Examples.seeded_db 50
                  order_ties_in_storage_order_ok H50) _ _ Hin).
Defined.

Lemma seeded_text_is_ascii :
  forall p, In p (products Examples.seeded_db) ->
    is_ascii (Product.name p) = true /\ is_ascii (Product.description p) = true.
Proof.
  assert (H : forallb (fun p => is_ascii (Product.name p)
                                && is_ascii (Product.description p))
                (products Examples.seeded_db) = true) by (vm_compute; reflexivity).
  rewrite forallb_forall in H. intros p Hp. now apply andb_true_iff, H.
Qed.

Lemma search_literal_is_substring_witness :
  order_by_contract order_ties_in_storage_order /\
  literal "rtx" = true /\ is_ascii "rtx" = true /\
  (forall p, In p (products Examples.seeded_db) ->
     is_ascii (Product.name p) = true /\ is_ascii (Product.description p) = true) /\
  ProductService.get_products order_ties_in_storage_order Examples.seeded_db
    (Some (ProductFilter.mk None None None None None false (Some "rtx"%string)))
    20 0
  = Ok [ProductService.summary Examples.seeded_db
          (hd Examples.memory_product (products Examples.seeded_db))] /\
  exists p,
    In p (products Examples.seeded_db) /\
    ProductService.summary Examples.seeded_db
      (hd Examples.memory_product (products Examples.seeded_db))
    = ProductService.summary Examples.seeded_db p /\
    (contains_ci "rtx" (Product.name p) = true
     \/ contains_ci "rtx" (Product.description p) = true).
Proof.
  split; [exact order_ties_in_storage_order_ok|]. split; [reflexivity|].
  split; [reflexivity|]. split; [exact seeded_text_is_ascii|].
  split; [reflexivity|].
  apply (search_literal_is_substring order_ties_in_storage_order Examples.seeded_db
           (ProductFilter.mk None None None None None false (Some "rtx"%string))
           "rtx" 20 0
           [ProductService.summary Examples.seeded_db
              (hd Examples.memory_product (products Examples.seeded_db))]
           _ order_ties_in_storage_order_ok eq_refl).
  - discriminate.
  - reflexivity.
  - reflexivity.
  - exact seeded_text_is_ascii.
  - reflexivity.
  - left. reflexivity.
Defined.

(** ** From a summary back to the store *)

(** X22. With distinct product ids, every summary of a page leads back to
    its product: [get_product_by_id] on the id of the summary returns a
    stored product, and the summary is the summary of that product. *)
Theorem summary_id_finds_product :
  forall order_by db filters limit offset r s,
    order_by_contract order_by ->
    NoDup (map Product.id (products db)) ->
    ProductService.get_products order_by db filters limit offset = Ok r ->
    In s r ->
    exists p,
      ProductService.get_product_by_id db (ProductSummary.id s) = Some p /\
      s = ProductService.summary db p.
Proof.
  intros order_by db filters limit offset r s Hord Hnd Hget Hin.
  destruct (get_products_In _ _ _ _ _ _ _ Hord Hget Hin) as (p & Hp & ->).
  apply matching_In in Hp. exists p. split; [|reflexivity].
  cbn [ProductService.summary ProductSummary.id]. rewrite or_0_id.
  now apply (find_key_complete Product.id Z.eqb Z.eqb_eq).
Qed.

Lemma summary_id_finds_product_witness :
  order_by_contract order_ties_in_storage_order /\
  NoDup (map Product.id (products Examples.seeded_db)) /\
  ProductService.get_products order_ties_in_storage_order Examples.seeded_db
    (Some Examples.memory_filter) 20 0 = Ok Examples.memory_page /\
  In Examples.memory_summary Examples.memory_page /\
  exists p,
    ProductService.get_product_by_id Examples.seeded_db
      (ProductSummary.id Examples.memory_summary) = Some p /\
    Examples.memory_summary = ProductService.summary Examples.seeded_db p.
Proof.
  split; [exact order_ties_in_storage_order_ok|].
  split; [exact seeded_ids_distinct|]. split; [reflexivity|].
  split; [left; reflexivity|].
  exact (summary_id_finds_product order_ties_in_storage_order Examples.seeded_db
           (Some Examples.memory_filter) 20 0 Examples.memory_page
           Examples.memory_summary order_ties_in_storage_order_ok
           seeded_ids_distinct eq_refl (or_introl eq_refl)).
Defined.

(** X23. With distinct category and brand ids, filtering on the id of a
    stored category (brand) returns only summaries that carry the name of
    that category (brand). *)
Theorem filter_by_entity_gives_its_name :
  forall order_by db f limit offset r s,
    order_by_contract order_by -> keys_distinct db ->
    ProductService.get_products order_by db (Some f) limit offset = Ok r ->
    In s r ->
    (forall c, In c (categories db) ->
       ProductFilter.category_id f = Some (Category.id c) ->
       ProductSummary.category_name s = Some (Category.name c)) /\
    (forall b, In b (brands db) ->
       ProductFilter.brand_id f = Some (Brand.id b) ->
       ProductSummary.brand_name s = Some (Brand.name b)).
Proof.
  intros order_by db f limit offset r s Hord (Kc & Kb & _) Hget Hin.
  destruct (get_products_matching _ _ _ _ _ _ _ Hord Hget Hin)
    as (p & _ & -> & Hsat).
  apply satisfies_where_clauses in Hsat as (Hcat & Hbrand & _).
  cbn [ProductService.summary ProductSummary.category_name
       ProductSummary.brand_name].
  split.
  - intros c Hc E. rewrite (Hcat _ E). unfold session_get.
    now rewrite (find_key_complete Category.id Z.eqb Z.eqb_eq).
  - intros b Hb E. rewrite (Hbrand _ E). unfold session_get.
    now rewrite (find_key_complete Brand.id Z.eqb Z.eqb_eq).
Qed.

Lemma filter_by_entity_gives_its_name_witness :
  order_by_contract order_ties_in_storage_order /\
  keys_distinct Examples.seeded_db /\
  ProductService.get_products order_ties_in_storage_order Examples.seeded_db
    (Some Examples.memory_filter) 20 0 = Ok Examples.memory_page /\
  In Examples.memory_summary Examples.memory_page /\
  In Examples.memory_category (categories Examples.seeded_db) /\
  ProductSummary.category_name Examples.memory_summary = Some "Memory"%string.
Proof.
  assert (Hc : In Examples.memory_category (categories Examples.seeded_db))
    by (right; right; left; reflexivity).
  split; [exact order_ties_in_storage_order_ok|].
  split; [exact (proj1 seeded_db_well_keyed)|]. split; [reflexivity|].
  split; [left; reflexivity|]. split; [exact Hc|].
  exact (proj1 (filter_by_entity_gives_its_name order_ties_in_storage_order
                  Examples.seeded_db Examples.memory_filter 20 0
                  Examples.memory_page Examples.memory_summary
                  order_ties_in_storage_order_ok (proj1 seeded_db_well_keyed)
                  eq_refl (or_introl eq_refl))
           Examples.memory_category Hc eq_refl).
Defined.

Lemma gallery_image_spec_witness :
  Components.gallery_image [Examples.unflagged_image] = Some Examples.unflagged_image /\
  (forall x, In x [Examples.unflagged_image] -> ProductImage.is_primary x = false) /\
  hd_error [Examples.unflagged_image] = Some Examples.unflagged_image.
Proof.
  assert (Hnone : forall x, In x [Examples.unflagged_image] ->
                            ProductImage.is_primary x = false).
  { intros x [<-|[]]. reflexivity. }
  split; [reflexivity|]. split; [exact Hnone|].
  destruct (proj2 (gallery_image_spec [Examples.unflagged_image])
              Examples.unflagged_image eq_refl) as (_ & _ & Hfirst).
  exact (Hfirst Hnone).
Defined.
